(** * The vLLM process manager of [backend/main.py]

    A shallow embedding of class [VLLMManager]: process discovery, the port
    allocator, [start_server], [stop_server] and [get_status], followed by
    the properties of the supervisor that the specification states.

    Conventions.
    - [self.processes] is a Python [dict]; it iterates in insertion order and
      both the [models] list of [get_status] and the message of [stop_server]
      follow that order, so the registry is an association list with the
      dict operations of module [Dict].
    - Everything the manager asks of the operating system or of the Python
      runtime during one call (socket probes, process handles, signals, the
      spawn) is answered by a [World].  The manager is otherwise
      deterministic, so each method is a function of the world and the
      registry, returning the registry it leaves behind and its outcome.
    - A call either returns, raises a Python exception to its caller, or never
      returns ([Diverges]: the unbounded port scan).  Calls are taken one at
      a time; [print] statements are left out. *)

From Stdlib Require Import ZArith List String Ascii Bool DecimalString Lia Permutation.
From Stdlib Require Decimal DecimalPos.
Import ListNotations.

Local Open Scope string_scope.
Local Open Scope Z_scope.

(** ** Python primitives *)

Module Py.

(** [needle in hay] on [str]. *)
Fixpoint contains (needle hay : string) : bool :=
  if String.prefix needle hay then true
  else match hay with
       | EmptyString => false
       | String _ rest => contains needle rest
       end.

(** [sep.join(parts)]. *)
Definition join (sep : string) (parts : list string) : string :=
  String.concat sep parts.

(** [str(n)] for an [int]. *)
Definition str_of_int (n : Z) : string :=
  NilZero.string_of_int (Z.to_int n).

Definition is_digit (c : ascii) : bool :=
  let n := nat_of_ascii c in (48 <=? n)%nat && (n <=? 57)%nat.

Definition digit_value (c : ascii) : Z :=
  Z.of_nat (nat_of_ascii c) - 48.

(** The white space that [int] skips around a literal. *)
Definition is_space (c : ascii) : bool :=
  let n := nat_of_ascii c in
  ((9 <=? n)%nat && (n <=? 13)%nat) || (n =? 32)%nat.

Fixpoint lstrip (s : string) : string :=
  match s with
  | String c rest => if is_space c then lstrip rest else s
  | EmptyString => EmptyString
  end.

Fixpoint all_space (s : string) : bool :=
  match s with
  | EmptyString => true
  | String c rest => is_space c && all_space rest
  end.

(** The digits of a decimal literal after its first digit: further digits,
    each optionally preceded by one underscore, then trailing white space. *)
Fixpoint int_digits (acc : Z) (s : string) : option Z :=
  match s with
  | EmptyString => Some acc
  | String c rest =>
      if is_digit c then int_digits (10 * acc + digit_value c) rest
      else if Ascii.eqb c "_" then
        match rest with
        | String d rest' =>
            if is_digit d then int_digits (10 * acc + digit_value d) rest'
            else None
        | EmptyString => None
        end
      else if all_space s then Some acc
      else None
  end.

Definition int_unsigned (s : string) : option Z :=
  match s with
  | String c rest => if is_digit c then int_digits (digit_value c) rest else None
  | EmptyString => None
  end.

(** [int(s)] for a [str] in base ten; [None] stands for [ValueError].
    Strings are sequences of 8-bit characters here, and only the ASCII
    digits and ASCII white space are recognised. *)
Definition int_of_str (s : string) : option Z :=
  match lstrip s with
  | String "-" rest => option_map Z.opp (int_unsigned rest)
  | String "+" rest => int_unsigned rest
  | t => int_unsigned t
  end.

Definition lower_char (c : ascii) : ascii :=
  let n := nat_of_ascii c in
  if (65 <=? n)%nat && (n <=? 90)%nat then ascii_of_nat (n + 32) else c.

(** [s.lower()] on the ASCII letters. *)
Fixpoint lower (s : string) : string :=
  match s with
  | EmptyString => EmptyString
  | String c rest => String (lower_char c) (lower rest)
  end.

(** The longest run of digits at the head of [s], and what follows it. *)
Fixpoint span_digits (s : string) : string * string :=
  match s with
  | String c rest =>
      if is_digit c then
        let '(ds, tl) := span_digits rest in (String c ds, tl)
      else (EmptyString, s)
  | EmptyString => (EmptyString, EmptyString)
  end.

(** [re.search(r'\((\d+)\)', s)]: group 1 of the leftmost match, if any. *)
Fixpoint search_paren_digits (s : string) : option string :=
  match s with
  | EmptyString => None
  | String c rest =>
      if Ascii.eqb c "(" then
        match span_digits rest with
        | (String d ds, String ")" _) => Some (String d ds)
        | _ => search_paren_digits rest
        end
      else search_paren_digits rest
  end.

End Py.

(** ** Exceptions and outcomes *)

Inductive exn_class : Type :=
  | AttributeError
  | TypeError
  | ValueError
  | OverflowError
  | OSError
  | ProcessLookupError
  | PermissionError
  | TimeoutError
  | NoSuchProcess
  | AccessDenied.

(** Every class above derives from [Exception]; [exn_msg] is [str(e)]. *)
Record exn : Type := mk_exn { exn_cls : exn_class; exn_msg : string }.

Definition exn_class_eqb (a b : exn_class) : bool :=
  match a, b with
  | AttributeError, AttributeError | TypeError, TypeError
  | ValueError, ValueError | OverflowError, OverflowError
  | OSError, OSError | ProcessLookupError, ProcessLookupError
  | PermissionError, PermissionError | TimeoutError, TimeoutError
  | NoSuchProcess, NoSuchProcess | AccessDenied, AccessDenied => true
  | _, _ => false
  end.

(** [except cls] catches [e]. *)
Definition caught_by (cls : exn_class) (e : exn) : bool :=
  exn_class_eqb (exn_cls e) cls.

(** What one request to the system or the runtime answers. *)
Inductive answer (A : Type) : Type :=
  | Ok (a : A)
  | Fail (e : exn).

Arguments Ok {A} a.
Arguments Fail {A} e.

(** How a call of a method ends. *)
Inductive outcome (A : Type) : Type :=
  | Return (a : A)
  | Raise (e : exn)
  | Diverges.

Arguments Return {A} a.
Arguments Raise {A} e.
Arguments Diverges {A}.

(** ** Data model *)

(** The two kinds of object stored under ['process']: the
    [asyncio.subprocess.Process] returned by [create_subprocess_exec], and
    the [psutil.Process] yielded by [process_iter]. *)
Inductive handle : Type :=
  | AsyncioProcess (pid : Z)
  | PsutilProcess (pid : Z).

Definition handle_pid (h : handle) : Z :=
  match h with AsyncioProcess p | PsutilProcess p => p end.

(** ['port']: an [int], or the string ['N/A']. *)
Inductive port_value : Type :=
  | PortInt (p : Z)
  | PortNA.

(** ['status']: one of the strings ['starting'], ['running'], ['zombie']. *)
Inductive proc_status : Type :=
  | starting
  | running
  | zombie.

Definition status_eqb (a b : proc_status) : bool :=
  match a, b with
  | starting, starting | running, running | zombie, zombie => true
  | _, _ => false
  end.

Definition str_of_status (s : proc_status) : string :=
  match s with
  | starting => "starting"
  | running => "running"
  | zombie => "zombie"
  end.

Definition str_of_port (p : port_value) : string :=
  match p with
  | PortInt n => Py.str_of_int n
  | PortNA => "N/A"
  end.

Record proc_info : Type := mk_info {
  process : handle;
  port : port_value;
  status : proc_status
}.

Definition set_status (info : proc_info) (s : proc_status) : proc_info :=
  mk_info (process info) (port info) s.

(** ** The registry: an insertion-ordered dict keyed by display name *)

Module Dict.

Definition t : Type := list (string * proc_info).

Definition empty : t := [].

Fixpoint get (d : t) (k : string) : option proc_info :=
  match d with
  | [] => None
  | (k', v) :: rest => if String.eqb k k' then Some v else get rest k
  end.

Definition mem (d : t) (k : string) : bool :=
  match get d k with Some _ => true | None => false end.

(** [d[k] = v]: in place when [k] is present, appended otherwise. *)
Fixpoint set (d : t) (k : string) (v : proc_info) : t :=
  match d with
  | [] => [(k, v)]
  | (k', v') :: rest =>
      if String.eqb k k' then (k', v) :: rest else (k', v') :: set rest k v
  end.

(** [del d[k]]. *)
Definition del (d : t) (k : string) : t :=
  filter (fun kv => negb (String.eqb k (fst kv))) d.

Definition len (d : t) : Z := Z.of_nat (List.length d).

Definition keys (d : t) : list string := map fst d.

(** What every dict satisfies: no key occurs twice. *)
Definition wf (d : t) : Prop := NoDup (keys d).

End Dict.

Definition registry : Type := Dict.t.

(** The entries that are not classified as zombies. *)
Definition active_entries (r : registry) : list (string * proc_info) :=
  filter (fun kv => negb (status_eqb (status (snd kv)) zombie)) r.

Definition active_count (r : registry) : Z :=
  Z.of_nat (List.length (active_entries r)).

(** ** The world a call runs in *)

Record World : Type := mk_world {
  (** [s.connect_ex(('localhost', port))] for a port in 0..65535, socket
      creation included: the error number (0 when the connection was made),
      or the exception raised inside the [try]. *)
  connect_ex : Z -> answer Z;
  (** [proc.returncode] of the asyncio child with this pid. *)
  returncode : Z -> option Z;
  (** [asyncio.create_subprocess_exec( *cmd )]: the pid of the child. *)
  create_subprocess_exec : list string -> answer Z;
  (** [psutil.Process.is_running()]; it never raises. *)
  is_running : Z -> bool;
  (** [psutil.Process.status()]: [true] when it is [STATUS_ZOMBIE]. *)
  ps_status : Z -> answer bool;
  (** [os.kill(pid, 9)]; [None] when the signal was sent. *)
  os_kill : Z -> option exn;
  (** [subprocess.run(f"kill -9 {pid}", shell=True)]; [None] when the shell
      ran, whatever its exit status. *)
  shell_kill : Z -> option exn;
  (** [proc.terminate()] and [proc.kill()] on either kind of handle. *)
  proc_terminate : handle -> option exn;
  proc_kill : handle -> option exn;
  (** [await asyncio.wait_for(proc.wait(), timeout=5.0)] on an asyncio
      child; [TimeoutError] when it has not exited after five seconds. *)
  wait_for_exit : Z -> option exn;
  (** [await proc.wait()] on an asyncio child. *)
  proc_wait : Z -> option exn;
  (** The blocking [psutil.Process.wait()]. *)
  psutil_wait : Z -> option exn;
  (** [str(e)] of the [TypeError] that [asyncio.wait_for] raises when it is
      handed something that is not awaitable. *)
  not_awaitable_msg : string
}.

(** ** Configuration set in [__init__] *)

Definition vllm_path : string := "/home/sinergi/AI/vllm/venv/bin/vllm".
Definition base_port : Z := 8001.

(** ** Port allocator *)

(** The socket layer refuses a port outside 0..65535 with [OverflowError]
    before any connection is attempted. *)
Definition socket_connect_ex (w : World) (port : Z) : answer Z :=
  if (port <? 0) || (65535 <? port)
  then Fail (mk_exn OverflowError "connect_ex(): port must be 0-65535.")
  else connect_ex w port.

Definition _is_port_in_use (w : World) (port : Z) : bool :=
  match socket_connect_ex w port with
  | Ok errno => errno =? 0
  | Fail _ => true
  end.

(** [while self._is_port_in_use(port): port += 1], run for at most [fuel]
    probes. *)
Fixpoint scan_ports (w : World) (fuel : nat) (port : Z) : option Z :=
  match fuel with
  | O => None
  | S fuel' =>
      if _is_port_in_use w port then scan_ports w fuel' (port + 1)
      else Some port
  end.

(** Every port above 65535 reports in use, so the loop leaves through a port
    of [base..65535] or not at all: [None] is the scan that never ends. *)
Definition scan_bound (base : Z) : nat := Z.to_nat (65536 - base).

Definition next_free_port_from (w : World) (base : Z) : option Z :=
  scan_ports w (scan_bound base) base.

Definition _get_next_free_port (w : World) : option Z :=
  next_free_port_from w base_port.

(** ** Process discovery *)

(** One element of [psutil.process_iter(['pid', 'name', 'cmdline', 'ppid'])]:
    its [info] dict.  [cmdline] is [None] when psutil could not read it. *)
Record os_process : Type := mk_proc {
  pid : Z;
  name : string;
  cmdline : option (list string);
  ppid : Z
}.

(** [' '.join(cmdline) if cmdline else name]. *)
Definition cmd_str_of (p : os_process) : string :=
  match cmdline p with
  | Some (arg :: args) => Py.join " " (arg :: args)
  | _ => name p
  end.

(** The loop [for i, arg in enumerate(cmdline)] over the rest of the command
    line, carrying [(model_name, port)]. *)
Fixpoint scan_args (args : list string) (acc : string * Z) : string * Z :=
  match args with
  | [] => acc
  | arg :: rest =>
      let acc1 :=
        match rest with
        | next :: _ => if String.eqb arg "serve" then (next, snd acc) else acc
        | [] => acc
        end in
      let acc2 :=
        match rest with
        | next :: _ =>
            if String.eqb arg "--port" then
              match Py.int_of_str next with
              | Some p => (fst acc1, p)
              | None => acc1
              end
            else acc1
        | [] => acc1
        end in
      scan_args rest acc2
  end.

Definition display_name_of (model_name : string) (pid : Z) : string :=
  if String.eqb model_name "Unknown"
  then "Unknown (PID:" ++ Py.str_of_int pid ++ ")"
  else model_name.

Definition zombie_name (pid : Z) : string :=
  "Zombie Process (" ++ Py.str_of_int pid ++ ")".

(** Step 2 of the loop body: the [VLLM::EngineCore] orphans. *)
Definition discover_zombie (r : registry) (p : os_process) : registry :=
  if Py.contains "VLLM::EngineCore" (cmd_str_of p)
     || Py.contains "VLLM::EngineCore" (name p)
  then
    if ppid p =? 1
    then Dict.set r (zombie_name (pid p))
           (mk_info (PsutilProcess (pid p)) PortNA zombie)
    else r
  else r.

(** Step 1 of the loop body, when it applies: the entry of a [vllm serve]
    process. *)
Definition discover_serving (r : registry) (p : os_process)
    (args : list string) : registry :=
  let '(model_name, port) := scan_args args ("Unknown", 8001) in
  Dict.set r (display_name_of model_name (pid p))
    (mk_info (PsutilProcess (pid p)) (PortInt port) running).

(** The body of the scan loop for one process.  ['serve' in cmdline] on a
    [cmdline] that is [None] raises [TypeError], which the inner [except]
    does not list. *)
Definition discover_one (r : registry) (p : os_process) : answer registry :=
  if Py.contains "vllm" (cmd_str_of p) then
    match cmdline p with
    | None =>
        Fail (mk_exn TypeError "argument of type 'NoneType' is not iterable")
    | Some args =>
        if existsb (String.eqb "serve") args
        then Ok (discover_serving r p args)
        else Ok (discover_zombie r p)
    end
  else Ok (discover_zombie r p).

(** The scan; an exception of the body ends it through the outer [except],
    which keeps what was registered so far. *)
Fixpoint discover_from (r : registry) (procs : list os_process) : registry :=
  match procs with
  | [] => r
  | p :: rest =>
      match discover_one r p with
      | Ok r' => discover_from r' rest
      | Fail _ => r
      end
  end.

(** [_discover_running_processes], called by [__init__] on the empty dict,
    given what [process_iter] yields. *)
Definition _discover_running_processes (procs : list os_process) : registry :=
  discover_from Dict.empty procs.

(** ** Results of [start_server] and [stop_server] *)

(** The dict [{"status": ..., "message": ..., "port": ...}]; ["port"] is
    present only in the result of a successful start. *)
Record response : Type := mk_response {
  r_status : string;
  r_message : string;
  r_port : option Z
}.

Definition error_response (msg : string) : response :=
  mk_response "error" msg None.

Definition already_running_response (model_name : string) (info : proc_info)
    : response :=
  error_response ("Model " ++ model_name ++ " is already running on port "
                  ++ str_of_port (port info)).

Definition limit_response : response :=
  error_response "Max model limit reached (3). Stop a model first.".

Definition started_response (model_name : string) (port : Z) : response :=
  mk_response "success"
    ("Starting " ++ model_name ++ " on port " ++ Py.str_of_int port)
    (Some port).

(** ** start_server *)

(** [proc.returncode]: an attribute of the asyncio child only. *)
Definition get_returncode (w : World) (h : handle) : answer (option Z) :=
  match h with
  | AsyncioProcess p => Ok (returncode w p)
  | PsutilProcess _ =>
      Fail (mk_exn AttributeError
              "'Process' object has no attribute 'returncode'")
  end.

(** [os.path.join(os.path.dirname(__file__), "chat_template.jinja")] with the
    directory of the module left symbolic. *)
Definition template_path : string := "<backend>/chat_template.jinja".

Definition needs_chat_template (model_name : string) : bool :=
  Py.contains "opt" (Py.lower model_name)
  || Py.contains "pythia" (Py.lower model_name)
  || Py.contains "gpt" (Py.lower model_name).

Definition launch_cmd (model_name : string) (port : Z) : list string :=
  [vllm_path; "serve"; model_name;
   "--port"; Py.str_of_int port;
   "--gpu-memory-utilization"; "0.25";
   "--dtype"; "auto";
   "--enforce-eager";
   "--disable-log-stats"]
  ++ (if needs_chat_template model_name
      then ["--chat-template"; template_path] else [])%list.

(** The part of [start_server] after the duplicate check. *)
Definition launch (w : World) (r : registry) (model_name : string)
    : registry * outcome response :=
  if 3 <=? Dict.len r then (r, Return limit_response)
  else
    match _get_next_free_port w with
    | None => (r, Diverges)
    | Some port =>
        match create_subprocess_exec w (launch_cmd model_name port) with
        | Ok child =>
            (Dict.set r model_name
               (mk_info (AsyncioProcess child) (PortInt port) starting),
             Return (started_response model_name port))
        | Fail e => (r, Return (error_response (exn_msg e)))
        end
    end.

Definition start_server (w : World) (r : registry) (model_name : string)
    : registry * outcome response :=
  match Dict.get r model_name with
  | Some info =>
      match get_returncode w (process info) with
      | Fail e => (r, Raise e)
      | Ok (Some _) => launch w (Dict.del r model_name) model_name
      | Ok None => (r, Return (already_running_response model_name info))
      end
  | None => launch w r model_name
  end.

(** ** stop_server *)

(** The inner [try] of the zombie branch: what escapes it, if anything. *)
Definition kill_pid (w : World) (pid : Z) : option exn :=
  match os_kill w pid with
  | None => None
  | Some e =>
      if caught_by ProcessLookupError e then None
      else shell_kill w pid
  end.

(** The outer [try] of the zombie branch up to the [del]. *)
Definition kill_zombie (w : World) (name : string) : option exn :=
  match Py.search_paren_digits name with
  | Some digits =>
      match Py.int_of_str digits with
      | Some pid => kill_pid w pid
      | None =>
          Some (mk_exn ValueError
                  ("invalid literal for int() with base 10: '" ++ digits ++ "'"))
      end
  | None => None
  end.

(** The terminate, wait and kill steps of the ordinary branch.  Both kinds
    of handle have a [terminate] attribute, so both take the first arm of
    the [if]; there the [psutil] handle's [wait()] blocks until the process
    is gone and its return value is then handed to [asyncio.wait_for]. *)
Definition terminate_sequence (w : World) (proc : handle) : option exn :=
  match proc_terminate w proc with
  | Some e => Some e
  | None =>
      match proc with
      | AsyncioProcess p =>
          match wait_for_exit w p with
          | None => None
          | Some e =>
              if caught_by TimeoutError e then
                match proc_kill w proc with
                | Some e' => Some e'
                | None => proc_wait w p
                end
              else Some e
          end
      | PsutilProcess p =>
          match psutil_wait w p with
          | Some e => Some e
          | None => Some (mk_exn TypeError (not_awaitable_msg w))
          end
      end
  end.

(** The body of [for name in targets], on the registry and the [results]
    list.  The port clean-up by [lsof] swallows every exception and does not
    touch the registry. *)
Definition stop_target (w : World) (st : registry * list string)
    (name : string) : registry * list string :=
  let '(r, results) := st in
  match Dict.get r name with
  | None => (r, results)
  | Some info =>
      if Py.contains "Zombie Process" name && status_eqb (status info) zombie
      then
        match kill_zombie w name with
        | None => (Dict.del r name, app results ["Killed zombie " ++ name])
        | Some e =>
            (r, app results
                  ["Error killing zombie " ++ name ++ ": " ++ exn_msg e])
        end
      else
        match terminate_sequence w (process info) with
        | None => (Dict.del r name, app results ["Stopped " ++ name])
        | Some e =>
            (Dict.del r name,
             app results
               ["Error stopping structure for " ++ name ++ ": " ++ exn_msg e])
        end
  end.

(** [if model_name:] - neither [None] nor the empty string. *)
Definition truthy (model_name : option string) : option string :=
  match model_name with
  | Some EmptyString => None
  | other => other
  end.

Definition stop_all (w : World) (r : registry) (targets : list string)
    : registry * response :=
  let '(r', results) := fold_left (stop_target w) targets (r, []) in
  (r', mk_response "success" (Py.join ", " results) None).

Definition stop_server (w : World) (r : registry) (model_name : option string)
    : registry * response :=
  match truthy model_name with
  | Some name =>
      if Dict.mem r name then stop_all w r [name]
      else (r, error_response ("Model " ++ name ++ " not found"))
  | None => stop_all w r (Dict.keys r)
  end.

(** ** get_status *)

(** One element of ["models"]. *)
Record model_row : Type := mk_row {
  row_name : string;
  row_port : port_value;
  row_status : proc_status
}.

Record status_report : Type := mk_report {
  rep_running : bool;
  rep_models : list model_row
}.

(** The computation of [is_dead] for one entry.  For a [psutil] handle both
    arms of the [if] are [pass]: only [NoSuchProcess] out of [status()] sets
    the flag, and any other exception leaves the method. *)
Definition is_dead (w : World) (proc : handle) : answer bool :=
  match proc with
  | PsutilProcess p =>
      if negb (is_running w p) then Ok false
      else
        match ps_status w p with
        | Ok _ => Ok false
        | Fail e => if caught_by NoSuchProcess e then Ok true else Fail e
        end
  | AsyncioProcess p =>
      match returncode w p with
      | Some _ => Ok true
      | None => Ok false
      end
  end.

(** The connectivity check of the [else] arm, which rewrites ['status'] in
    the entry itself. *)
Definition refresh (w : World) (info : proc_info) : proc_info :=
  match status info, port info with
  | starting, PortInt p =>
      if _is_port_in_use w p then set_status info running else info
  | _, _ => info
  end.

(** The first loop of [get_status] over [self.processes.items()]: the
    entries as the loop leaves them, and either [(active_models,
    models_to_remove)] or the exception that interrupted it. *)
Fixpoint status_loop (w : World) (items : list (string * proc_info))
    : list (string * proc_info) * answer (list model_row * list string) :=
  match items with
  | [] => ([], Ok ([], []))
  | (name, info) :: rest =>
      match is_dead w (process info) with
      | Fail e => (items, Fail e)
      | Ok dead =>
          if dead && negb (status_eqb (status info) zombie) then
            let '(rest', res) := status_loop w rest in
            ((name, info) :: rest',
             match res with
             | Ok (active, remove) => Ok (active, name :: remove)
             | Fail e => Fail e
             end)
          else
            let info' := refresh w info in
            let '(rest', res) := status_loop w rest in
            ((name, info') :: rest',
             match res with
             | Ok (active, remove) =>
                 Ok (mk_row name (port info') (status info') :: active, remove)
             | Fail e => Fail e
             end)
      end
  end.

Definition get_status (w : World) (r : registry)
    : registry * outcome status_report :=
  match status_loop w r with
  | (r', Ok (active_models, models_to_remove)) =>
      (fold_left Dict.del models_to_remove r',
       Return (mk_report (0 <? Z.of_nat (List.length active_models))
                 active_models))
  | (r', Fail e) => (r', Raise e)
  end.

(** ** Sequences of calls *)

Inductive call : Type :=
  | Start (model_name : string)
  | Stop (model_name : option string)
  | Status.

(** The registry after one call made in world [w]. *)
Definition step (r : registry) (wc : World * call) : registry :=
  match wc with
  | (w, Start model_name) => fst (start_server w r model_name)
  | (w, Stop model_name) => fst (stop_server w r model_name)
  | (w, Status) => fst (get_status w r)
  end.

(** The registry after a sequence of calls, each in the world of its time. *)
Definition run (r : registry) (calls : list (World * call)) : registry :=
  fold_left step calls r.

(** ** chat_completion *)

(** The loop over [processes.items()] with its [break]: the port of the
    first entry, in dict order, whose name contains [model_name]. *)
Fixpoint fuzzy_port (items : list (string * proc_info)) (model_name : string)
    : option port_value :=
  match items with
  | [] => None
  | (name, info) :: rest =>
      if Py.contains model_name name then Some (port info)
      else fuzzy_port rest model_name
  end.

(** [target_port] after the lookup; [None] as in the source. *)
Definition target_port_of (r : registry) (model_name : string)
    : option port_value :=
  match Dict.get r model_name with
  | Some info => Some (port info)
  | None => fuzzy_port r model_name
  end.

(** Truth value of a port: an [int] other than 0, or the string ['N/A']. *)
Definition port_truthy (p : port_value) : bool :=
  match p with
  | PortInt n => negb (n =? 0)
  | PortNA => true
  end.

Definition chat_url (p : port_value) : string :=
  "http://localhost:" ++ str_of_port p ++ "/v1/chat/completions".

(** What the endpoint returns: the dict [{"error": msg}], or the JSON body
    of the server's answer. *)
Inductive chat_reply : Type :=
  | ChatError (msg : string)
  | ChatBody (json : string).

(** [chat_completion] for a request whose ["model"] is a string or absent.
    [post url model] stands for the whole [try] block: the POST of the
    request's messages for [model] to [url], [raise_for_status] and
    [response.json()]. *)
Definition chat_completion (post : string -> string -> answer string)
    (r : registry) (model_name : option string) : chat_reply :=
  match truthy model_name with
  | None => ChatError "Model name is required"
  | Some m =>
      match target_port_of r m with
      | Some p =>
          if port_truthy p then
            match post (chat_url p) m with
            | Ok body => ChatBody body
            | Fail e =>
                ChatError ("Failed to communicate with vLLM on port "
                           ++ str_of_port p ++ ": " ++ exn_msg e)
            end
          else ChatError ("Model " ++ m ++ " is not currently running")
      | None => ChatError ("Model " ++ m ++ " is not currently running")
      end
  end.

(** ** ConnectionManager *)

Module ConnectionManager.

(** [active_connections]: WebSocket objects, told apart by identity. *)
Definition t : Type := list nat.

(** [connect]: the socket is appended once [accept()] has returned. *)
Definition connect (accept : nat -> option exn) (conns : t) (ws : nat)
    : t * outcome unit :=
  match accept ws with
  | None => ((conns ++ [ws])%list, Return tt)
  | Some e => (conns, Raise e)
  end.

(** [list.remove]: drops the first occurrence. *)
Fixpoint remove (ws : nat) (conns : t) : t :=
  match conns with
  | [] => []
  | c :: rest => if Nat.eqb c ws then rest else c :: remove ws rest
  end.

Definition disconnect (conns : t) (ws : nat) : t :=
  if existsb (Nat.eqb ws) conns then remove ws conns else conns.

(** The connections on which [send_json] raised, in order. *)
Definition dead_connections (send_json : nat -> option exn) (conns : t) : t :=
  filter (fun c => match send_json c with Some _ => true | None => false end)
    conns.

Definition broadcast (send_json : nat -> option exn) (conns : t) : t :=
  fold_left disconnect (dead_connections send_json conns) conns.

End ConnectionManager.

(** ** get_available_models *)

(** [s.replace(old, new)] for a non-empty [old], scanning from the left;
    [skip] counts the characters of a match still to be passed over. *)
Fixpoint replace_from (old new : string) (skip : nat) (s : string) : string :=
  match s with
  | EmptyString => EmptyString
  | String c rest =>
      match skip with
      | S k => replace_from old new k rest
      | O =>
          if String.prefix old s
          then new ++ replace_from old new (String.length old - 1) rest
          else String c (replace_from old new 0 rest)
      end
  end.

Definition str_replace (old new s : string) : string :=
  replace_from old new 0 s.

(** [item.name.replace("models--", "").replace("--", "/")]. *)
Definition cache_model_name (dir_name : string) : string :=
  str_replace "--" "/" (str_replace "models--" "" dir_name).

(** [get_available_models], given what the cache directory holds: [None]
    when it does not exist, else the name of each entry and whether it is a
    directory, in the order [glob] yields them. *)
Definition get_available_models (cache : option (list (string * bool)))
    : list string :=
  match cache with
  | None => []
  | Some entries =>
      map (fun item => cache_model_name (fst item))
        (filter (fun item => String.prefix "models--" (fst item) && snd item)
           entries)
  end.

(** ** Worlds and registries used as concrete inputs *)

(** A host on which nothing listens, every child spawns, every signal is
    delivered and every wait returns.  A child's pid is derived from the
    length of its command line's model argument, so that distinct models
    used below get distinct children. *)
Definition quiet_world : World :=
  mk_world
    (fun _ => Ok 111)
    (fun _ => None)
    (fun cmd => Ok (1000 + Z.of_nat (String.length (nth 2 cmd ""))))
    (fun _ => true)
    (fun _ => Ok false)
    (fun _ => None)
    (fun _ => None)
    (fun _ => None)
    (fun _ => None)
    (fun _ => None)
    (fun _ => None)
    (fun _ => None)
    "An asyncio.Future, a coroutine or an awaitable is required".

(** [quiet_world] with ports 8001 and 8002 answering. *)
Definition busy_world : World :=
  mk_world
    (fun p => if (p =? 8001) || (p =? 8002) then Ok 0 else Ok 111)
    (returncode quiet_world)
    (create_subprocess_exec quiet_world)
    (is_running quiet_world)
    (ps_status quiet_world)
    (os_kill quiet_world)
    (shell_kill quiet_world)
    (proc_terminate quiet_world)
    (proc_kill quiet_world)
    (wait_for_exit quiet_world)
    (proc_wait quiet_world)
    (psutil_wait quiet_world)
    (not_awaitable_msg quiet_world).

(** [quiet_world] after the scanned processes have gone: psutil no longer
    finds them. *)
Definition vanished_world : World :=
  mk_world
    (connect_ex quiet_world)
    (returncode quiet_world)
    (create_subprocess_exec quiet_world)
    (fun _ => false)
    (fun _ => Fail (mk_exn NoSuchProcess "process no longer exists"))
    (os_kill quiet_world)
    (shell_kill quiet_world)
    (proc_terminate quiet_world)
    (proc_kill quiet_world)
    (wait_for_exit quiet_world)
    (proc_wait quiet_world)
    (psutil_wait quiet_world)
    (not_awaitable_msg quiet_world).

(** A host on which the manager may signal nothing and cannot start a
    shell either. *)
Definition hostile_world : World :=
  mk_world
    (connect_ex quiet_world)
    (returncode quiet_world)
    (create_subprocess_exec quiet_world)
    (is_running quiet_world)
    (ps_status quiet_world)
    (fun _ => Some (mk_exn PermissionError "[Errno 1] Operation not permitted"))
    (fun _ => Some (mk_exn OSError "[Errno 11] Resource temporarily unavailable"))
    (fun _ => Some (mk_exn PermissionError "[Errno 1] Operation not permitted"))
    (fun _ => Some (mk_exn PermissionError "[Errno 1] Operation not permitted"))
    (wait_for_exit quiet_world)
    (proc_wait quiet_world)
    (psutil_wait quiet_world)
    (not_awaitable_msg quiet_world).

(** [hostile_world] with a shell that can be started. *)
Definition denied_world : World :=
  mk_world
    (connect_ex hostile_world)
    (returncode hostile_world)
    (create_subprocess_exec hostile_world)
    (is_running hostile_world)
    (ps_status hostile_world)
    (os_kill hostile_world)
    (fun _ => None)
    (proc_terminate hostile_world)
    (proc_kill hostile_world)
    (wait_for_exit hostile_world)
    (proc_wait hostile_world)
    (psutil_wait hostile_world)
    (not_awaitable_msg hostile_world).

(** A [vllm serve] process as the scan sees it. *)
Definition serving (pid : Z) (model port_text : string) : os_process :=
  mk_proc pid "vllm"
    (Some ["/opt/venv/bin/vllm"; "serve"; model; "--port"; port_text]) 4000.

Definition serve_gpt2 : os_process := serving 4242 "gpt2" "8005".

(** An engine worker re-parented to init. *)
Definition engine_orphan (pid : Z) : os_process :=
  mk_proc pid "VLLM::EngineCore" (Some ["VLLM::EngineCore"]) 1.

(** A host already running four servers when the manager is constructed. *)
Definition four_servers : list os_process :=
  [serve_gpt2;
   serving 4243 "facebook/opt-125m" "8006";
   serving 4244 "EleutherAI/pythia-70m" "8007";
   serving 4245 "distilgpt2" "8008"].

(** A host with one server and two orphaned engine workers. *)
Definition mixed_host : list os_process :=
  [serve_gpt2; engine_orphan 77; engine_orphan 78].

(** Two start requests in a row, before the first child listens. *)
Definition two_starts : list (World * call) :=
  [(quiet_world, Start "facebook/opt-125m"); (quiet_world, Start "gpt2")].

(** Four start requests on a quiet host. *)
Definition four_starts : list (World * call) :=
  [(quiet_world, Start "gpt2");
   (quiet_world, Start "facebook/opt-125m");
   (quiet_world, Start "EleutherAI/pythia-70m");
   (quiet_world, Start "distilgpt2")].

Definition no_returncode_error : exn :=
  mk_exn AttributeError "'Process' object has no attribute 'returncode'".

(** The registry of a host whose only match is one orphaned engine worker. *)
Definition lone_zombie : registry :=
  _discover_running_processes [engine_orphan 4242].

(** [quiet_world] once every child the manager spawned has exited. *)
Definition exited_world : World :=
  mk_world
    (connect_ex quiet_world)
    (fun _ => Some 0)
    (create_subprocess_exec quiet_world)
    (is_running quiet_world)
    (ps_status quiet_world)
    (os_kill quiet_world)
    (shell_kill quiet_world)
    (proc_terminate quiet_world)
    (proc_kill quiet_world)
    (wait_for_exit quiet_world)
    (proc_wait quiet_world)
    (psutil_wait quiet_world)
    (not_awaitable_msg quiet_world).

(** A defunct process named [vllm]: psutil cannot read its command line. *)
Definition defunct_vllm : os_process := mk_proc 4100 "vllm" None 4000.

(** An upstream server that answers every chat request. *)
Definition echo_post (url model : string) : answer string :=
  Ok ("{model: " ++ model ++ ", via: " ++ url ++ "}").

(** A peer whose socket is closed: sends to odd sockets fail. *)
Definition odd_closed (ws : nat) : option exn :=
  if Nat.odd ws then Some (mk_exn OSError "connection closed") else None.

(** The name and port of each entry, which is all that routing looks at. *)
Definition routes (r : registry) : list (string * port_value) :=
  map (fun kv => (fst kv, port (snd kv))) r.

(** ** Vocabulary of the statements *)

(** [tok] is the argument right after an occurrence of [key] in [args]. *)
Definition follows (key tok : string) (args : list string) : Prop :=
  exists pre post, args = (pre ++ key :: tok :: post)%list.

(** [msg] is one of the four reports [stop_server] makes for target [name]. *)
Definition target_message (name msg : string) : Prop :=
  msg = "Killed zombie " ++ name
  \/ (exists e, msg = "Error killing zombie " ++ name ++ ": " ++ e)
  \/ msg = "Stopped " ++ name
  \/ (exists e, msg = "Error stopping structure for " ++ name ++ ": " ++ e).

(** Every zombie entry of a registry has the name and shape that the zombie
    step of discovery gives it. *)
Definition zombies_named (r : registry) : Prop :=
  forall n info, In (n, info) r -> status info = zombie ->
    exists pid, n = zombie_name pid
                /\ info = mk_info (PsutilProcess pid) PortNA zombie.

(** The integer ports held by the entries of a registry, in order. *)
Definition int_ports (r : registry) : list Z :=
  flat_map (fun kv => match port (snd kv) with
                      | PortInt p => [p]
                      | PortNA => []
                      end) r.

(** No two entries hold the same integer port. *)
Definition ports_distinct (r : registry) : Prop := NoDup (int_ports r).

(** Every integer port of the registry answers a connect in world [w]. *)
Definition ports_answer (w : World) (r : registry) : Prop :=
  forall p, In p (int_ports r) -> _is_port_in_use w p = true.

(** The outcome of the [k]-th further [get_status] in an unchanged world. *)
Fixpoint poll (w : World) (k : nat) (r : registry)
    : registry * outcome status_report :=
  match k with
  | O => get_status w r
  | S k' => poll w k' (fst (get_status w r))
  end.

(** Purging the names marked for removal keeps the entries whose name is
    not among them. *)
Definition unmarked (names : list string) (kv : string * proc_info) : bool :=
  negb (existsb (String.eqb (fst kv)) names).

(** The discovery of a single process registered it as a running server. *)
Definition registered_as_server (p : os_process) : Prop :=
  exists n info,
    _discover_running_processes [p] = [(n, info)] /\ status info = running.


(** The ["models"] element that reports a registry entry. *)
Definition row_of (kv : string * proc_info) : model_row :=
  mk_row (fst kv) (port (snd kv)) (status (snd kv)).

(** ** Properties of the dict operations *)

Lemma get_del_same (d : Dict.t) (k : string) :
  Dict.get (Dict.del d k) k = None.
Proof.
  induction d as [|[k' v] d IH]; simpl; [reflexivity|].
  destruct (String.eqb k k') eqn:E; simpl; [exact IH|].
  rewrite E. exact IH.
Qed.


Lemma get_none_not_in (d : Dict.t) (k : string) :
  Dict.get d k = None <-> ~ In k (Dict.keys d).
Proof.
  induction d as [|[k' v] d IH]; simpl.
  - split; [intros _ []|reflexivity].
  - destruct (String.eqb k k') eqn:E.
    + apply String.eqb_eq in E. subst. split; [discriminate|].
      intros H. exfalso. apply H. now left.
    + apply String.eqb_neq in E. rewrite IH. split.
      * intros H [H'|H']; [congruence|contradiction].
      * intros H H'. apply H. now right.
Qed.

Lemma get_some_in (d : Dict.t) (k : string) (v : proc_info) :
  Dict.get d k = Some v -> In (k, v) d.
Proof.
  induction d as [|[k' v'] d IH]; simpl; [discriminate|].
  destruct (String.eqb k k') eqn:E.
  - apply String.eqb_eq in E. intros [= ->]. subst. now left.
  - intros H. right. now apply IH.
Qed.


Lemma len_nonneg (d : Dict.t) : 0 <= Dict.len d.
Proof. unfold Dict.len. lia. Qed.

Lemma len_del_le (d : Dict.t) (k : string) :
  Dict.len (Dict.del d k) <= Dict.len d.
Proof.
  unfold Dict.len, Dict.del.
  pose proof (filter_length_le (fun kv => negb (String.eqb k (fst kv))) d).
  lia.
Qed.

Lemma len_set_le (d : Dict.t) (k : string) (v : proc_info) :
  Dict.len (Dict.set d k v) <= Dict.len d + 1.
Proof.
  unfold Dict.len. induction d as [|[k' v'] d IH]; simpl Dict.set.
  - simpl. lia.
  - destruct (String.eqb k k'); simpl List.length in *; lia.
Qed.

Lemma set_absent (d : Dict.t) (k : string) (v : proc_info) :
  Dict.get d k = None -> Dict.set d k v = (d ++ [(k, v)])%list.
Proof.
  induction d as [|[k' v'] d IH]; simpl; [reflexivity|].
  destruct (String.eqb k k'); [discriminate|].
  intros H. now rewrite IH.
Qed.

Lemma get_set_same (d : Dict.t) (k : string) (v : proc_info) :
  Dict.get (Dict.set d k v) k = Some v.
Proof.
  induction d as [|[k' v'] d IH]; simpl.
  - now rewrite String.eqb_refl.
  - destruct (String.eqb k k') eqn:E; simpl; rewrite E; [reflexivity|exact IH].
Qed.

Lemma active_count_le_len (r : registry) : active_count r <= Dict.len r.
Proof.
  unfold active_count, active_entries, Dict.len.
  pose proof (filter_length_le
                (fun kv => negb (status_eqb (status (snd kv)) zombie)) r).
  lia.
Qed.

Lemma status_eqb_eq (a b : proc_status) : status_eqb a b = true <-> a = b.
Proof. destruct a, b; simpl; split; congruence. Qed.

(** ** Port allocator *)

Lemma port_above_range_in_use (w : World) (p : Z) :
  65535 < p -> _is_port_in_use w p = true.
Proof.
  intros H. unfold _is_port_in_use, socket_connect_ex.
  replace (65535 <? p) with true by (symmetry; apply Z.ltb_lt; exact H).
  now rewrite orb_true_r.
Qed.

Lemma free_port_in_range (w : World) (p : Z) :
  _is_port_in_use w p = false -> 0 <= p <= 65535.
Proof.
  intros H. unfold _is_port_in_use, socket_connect_ex in H.
  destruct (p <? 0) eqn:E1; [discriminate|].
  destruct (65535 <? p) eqn:E2; [discriminate|].
  apply Z.ltb_ge in E1, E2. lia.
Qed.

Lemma scan_ports_finds (w : World) (k : nat) :
  forall (fuel : nat) (base : Z),
    (forall j, 0 <= j < Z.of_nat k -> _is_port_in_use w (base + j) = true) ->
    _is_port_in_use w (base + Z.of_nat k) = false ->
    (k < fuel)%nat ->
    scan_ports w fuel base = Some (base + Z.of_nat k).
Proof.
  induction k as [|k IH]; intros fuel base Hbusy Hfree Hfuel;
    (destruct fuel as [|fuel]; [lia|]); simpl scan_ports.
  - rewrite Z.add_0_r in Hfree. rewrite Hfree. f_equal. simpl. lia.
  - rewrite <- (Z.add_0_r base) at 1. rewrite Hbusy by lia.
    rewrite (IH fuel (base + 1)).
    + f_equal. lia.
    + intros j Hj. replace (base + 1 + j) with (base + (j + 1)) by lia.
      apply Hbusy. lia.
    + replace (base + 1 + Z.of_nat k) with (base + Z.of_nat (S k)) by lia.
      exact Hfree.
    + lia.
Qed.

Lemma scan_ports_sound (w : World) (fuel : nat) :
  forall (base p : Z),
    scan_ports w fuel base = Some p ->
    base <= p /\ _is_port_in_use w p = false
    /\ forall q, base <= q < p -> _is_port_in_use w q = true.
Proof.
  induction fuel as [|fuel IH]; intros base p; simpl; [discriminate|].
  destruct (_is_port_in_use w base) eqn:E.
  - intros H. apply IH in H. destruct H as (Hle & Hfree & Hbusy).
    repeat split; [lia|exact Hfree|].
    intros q Hq. destruct (Z.eq_dec q base) as [->|Hne]; [exact E|].
    apply Hbusy. lia.
  - intros [= <-]. repeat split; [lia|exact E|]. intros q Hq. lia.
Qed.

Lemma next_free_port_from_finds (w : World) (base k : Z) :
  0 <= k ->
  (forall j, 0 <= j < k -> _is_port_in_use w (base + j) = true) ->
  _is_port_in_use w (base + k) = false ->
  next_free_port_from w base = Some (base + k).
Proof.
  intros Hk Hbusy Hfree. unfold next_free_port_from, scan_bound.
  pose proof (free_port_in_range w _ Hfree) as Hrange.
  rewrite <- (Z2Nat.id k Hk). apply scan_ports_finds.
  - rewrite Z2Nat.id by exact Hk. exact Hbusy.
  - rewrite Z2Nat.id by exact Hk. exact Hfree.
  - apply Z2Nat.inj_lt; lia.
Qed.

(** [None] is the scan that never ends: no amount of probing finds a port. *)
Lemma next_free_port_none_diverges (w : World) (base : Z) :
  next_free_port_from w base = None ->
  forall fuel, scan_ports w fuel base = None.
Proof.
  intros Hnone fuel.
  destruct (scan_ports w fuel base) as [p|] eqn:E; [|reflexivity].
  apply scan_ports_sound in E. destruct E as (Hle & Hfree & Hbusy).
  rewrite (next_free_port_from_finds w base (p - base)) in Hnone.
  - discriminate.
  - lia.
  - intros j Hj. apply Hbusy. lia.
  - replace (base + (p - base)) with p by lia. exact Hfree.
Qed.

(** C7. The allocator probes [base], [base + 1], ... in turn; a probe that
    connects (error number 0) marks the port in use and one that is refused
    or fails with another error number marks it free; the first free port is
    returned.  With base 8001, 8001 and 8002 occupied and 8003 free, the
    result is 8003. *)
Theorem next_free_port_first_free :
  (forall w p, 0 <= p <= 65535 ->
     connect_ex w p = Ok 0 -> _is_port_in_use w p = true)
  /\ (forall w p errno, 0 <= p <= 65535 ->
        connect_ex w p = Ok errno -> errno <> 0 ->
        _is_port_in_use w p = false)
  /\ (forall w base k, 0 <= k ->
        (forall j, 0 <= j < k -> _is_port_in_use w (base + j) = true) ->
        _is_port_in_use w (base + k) = false ->
        next_free_port_from w base = Some (base + k))
  /\ (forall w base p, next_free_port_from w base = Some p ->
        base <= p /\ _is_port_in_use w p = false
        /\ forall q, base <= q < p -> _is_port_in_use w q = true)
  /\ (forall w,
        _is_port_in_use w 8001 = true ->
        _is_port_in_use w 8002 = true ->
        _is_port_in_use w 8003 = false ->
        _get_next_free_port w = Some 8003).
Proof.
  assert (Hrange : forall p, 0 <= p <= 65535 ->
                     (p <? 0) || (65535 <? p) = false).
  { intros p Hp. apply orb_false_iff. split; apply Z.ltb_ge; lia. }
  repeat split.
  - intros w p Hp Hc. unfold _is_port_in_use, socket_connect_ex.
    now rewrite (Hrange p Hp), Hc.
  - intros w p errno Hp Hc Hne. unfold _is_port_in_use, socket_connect_ex.
    rewrite (Hrange p Hp), Hc. now apply Z.eqb_neq.
  - apply next_free_port_from_finds.
  - apply (scan_ports_sound w _ _ _ H).
  - apply (scan_ports_sound w _ _ _ H).
  - apply (scan_ports_sound w _ _ _ H).
  - intros w H1 H2 H3. unfold _get_next_free_port, base_port.
    apply (next_free_port_from_finds w 8001 2); [lia| |exact H3].
    intros j Hj.
    assert (j = 0 \/ j = 1) as [-> | ->] by lia; assumption.
Qed.

Lemma next_free_port_first_free_witness :
  next_free_port_from busy_world 8001 = Some (8001 + 2)
  /\ _get_next_free_port busy_world = Some 8003.
Proof.
  destruct next_free_port_first_free as (_ & _ & Hfind & _ & Hex).
  split.
  - apply Hfind; [lia| |reflexivity].
    intros j Hj. assert (j = 0 \/ j = 1) as [-> | ->] by lia; reflexivity.
  - apply Hex; reflexivity.
Defined.

(** ** The capacity ceiling *)

Lemma launch_len (w : World) (r : registry) (model_name : string) :
  Dict.len r <= 3 -> Dict.len (fst (launch w r model_name)) <= 3.
Proof.
  intros H. unfold launch.
  destruct (3 <=? Dict.len r) eqn:E; [exact H|].
  apply Z.leb_gt in E.
  destruct (_get_next_free_port w) as [p|]; [|exact H].
  destruct (create_subprocess_exec w _) as [child|e]; [|exact H].
  simpl. pose proof (len_set_le r model_name
    (mk_info (AsyncioProcess child) (PortInt p) starting)). lia.
Qed.

Lemma start_server_len (w : World) (r : registry) (model_name : string) :
  Dict.len r <= 3 -> Dict.len (fst (start_server w r model_name)) <= 3.
Proof.
  intros H. unfold start_server.
  destruct (Dict.get r model_name) as [info|]; [|now apply launch_len].
  destruct (get_returncode w (process info)) as [[code|]|e]; simpl; try exact H.
  apply launch_len. pose proof (len_del_le r model_name). lia.
Qed.

Lemma stop_target_len (w : World) (st : registry * list string) (n : string) :
  Dict.len (fst (stop_target w st n)) <= Dict.len (fst st).
Proof.
  destruct st as [r results]. unfold stop_target.
  pose proof (len_del_le r n).
  destruct (Dict.get r n) as [info|]; simpl; [|lia].
  destruct (Py.contains "Zombie Process" n && status_eqb (status info) zombie).
  - destruct (kill_zombie w n); simpl; lia.
  - destruct (terminate_sequence w (process info)); simpl; lia.
Qed.

Lemma stop_targets_len (w : World) (targets : list string) :
  forall st, Dict.len (fst (fold_left (stop_target w) targets st))
             <= Dict.len (fst st).
Proof.
  induction targets as [|n targets IH]; intros st; simpl; [lia|].
  pose proof (IH (stop_target w st n)).
  pose proof (stop_target_len w st n). lia.
Qed.

Lemma stop_all_len (w : World) (r : registry) (targets : list string) :
  Dict.len (fst (stop_all w r targets)) <= Dict.len r.
Proof.
  unfold stop_all. pose proof (stop_targets_len w targets (r, [])) as H.
  destruct (fold_left (stop_target w) targets (r, [])). exact H.
Qed.

Lemma stop_server_len (w : World) (r : registry) (m : option string) :
  Dict.len (fst (stop_server w r m)) <= Dict.len r.
Proof.
  unfold stop_server. destruct (truthy m) as [n|].
  - destruct (Dict.mem r n); [apply stop_all_len|simpl; lia].
  - apply stop_all_len.
Qed.

Lemma status_loop_keys (w : World) (items : list (string * proc_info)) :
  Dict.keys (fst (status_loop w items)) = Dict.keys items.
Proof.
  induction items as [|[n info] items IH]; simpl; [reflexivity|].
  destruct (is_dead w (process info)) as [dead|e]; [|reflexivity].
  destruct (dead && negb (status_eqb (status info) zombie));
    destruct (status_loop w items) as [rest' res]; simpl in *; now rewrite IH.
Qed.

Lemma dels_len (names : list string) :
  forall d, Dict.len (fold_left Dict.del names d) <= Dict.len d.
Proof.
  induction names as [|n names IH]; intros d; simpl; [lia|].
  pose proof (IH (Dict.del d n)). pose proof (len_del_le d n). lia.
Qed.

Lemma get_status_len (w : World) (r : registry) :
  Dict.len (fst (get_status w r)) <= Dict.len r.
Proof.
  unfold get_status. pose proof (status_loop_keys w r) as Hk.
  destruct (status_loop w r) as [r' [[active remove]|e]]; simpl in *.
  - pose proof (dels_len remove r').
    assert (Dict.len r' = Dict.len r).
    { unfold Dict.len. f_equal.
      rewrite <- (length_map fst r'), <- (length_map fst r).
      unfold Dict.keys in Hk. now rewrite Hk. }
    lia.
  - unfold Dict.len. rewrite <- (length_map fst r'), <- (length_map fst r).
    unfold Dict.keys in Hk. rewrite Hk. lia.
Qed.

Lemma step_len (r : registry) (wc : World * call) :
  Dict.len r <= 3 -> Dict.len (step r wc) <= 3.
Proof.
  intros H. destruct wc as [w [n|m|]]; simpl.
  - now apply start_server_len.
  - pose proof (stop_server_len w r m). lia.
  - pose proof (get_status_len w r). lia.
Qed.

Lemma run_len (calls : list (World * call)) :
  forall r, Dict.len r <= 3 -> Dict.len (run r calls) <= 3.
Proof.
  unfold run. induction calls as [|wc calls IH]; intros r H; simpl;
    [exact H|]. apply IH. now apply step_len.
Qed.

Lemma start_unregistered_at_limit (w : World) (r : registry) (n : string) :
  Dict.get r n = None -> 3 <= Dict.len r ->
  start_server w r n = (r, Return limit_response).
Proof.
  intros Hget Hlen. unfold start_server, launch. rewrite Hget.
  now replace (3 <=? Dict.len r) with true by (symmetry; now apply Z.leb_le).
Qed.

(** C1 (as amended). From a registry of at most three entries, every
    sequence of start, stop and status calls leaves at most three entries in
    all, zombies included, hence at most three that are not zombies; and a
    start of an unregistered name while the registry holds three or more
    entries of any status returns the limit error and leaves the registry as
    it was. *)
Theorem capacity_ceiling_counts_every_entry :
  (forall r calls, Dict.len r <= 3 ->
     active_count (run r calls) <= Dict.len (run r calls)
     /\ Dict.len (run r calls) <= 3)
  /\ (forall w r model_name,
        Dict.get r model_name = None -> 3 <= Dict.len r ->
        start_server w r model_name = (r, Return limit_response)).
Proof.
  split.
  - intros r calls H. split; [apply active_count_le_len|now apply run_len].
  - exact start_unregistered_at_limit.
Qed.

Lemma capacity_ceiling_counts_every_entry_witness :
  (active_count (run Dict.empty four_starts)
     <= Dict.len (run Dict.empty four_starts)
   /\ Dict.len (run Dict.empty four_starts) <= 3)
  /\ start_server quiet_world (run Dict.empty four_starts) "distilgpt2"
     = (run Dict.empty four_starts, Return limit_response).
Proof.
  destruct capacity_ceiling_counts_every_entry as [Hinv Hfull]. split.
  - apply Hinv. vm_compute. discriminate.
  - apply Hfull; [reflexivity|vm_compute; discriminate].
Defined.

(** C1 (as stated) fails. Discovery alone can seed four entries that are not
    zombies; and with one server and two zombies registered, a start is
    turned away for capacity although a single entry is not a zombie. *)
Lemma zombies_count_toward_ceiling :
  active_count (run (_discover_running_processes four_servers) []) = 4
  /\ active_count (_discover_running_processes mixed_host) = 1
  /\ start_server quiet_world (_discover_running_processes mixed_host)
       "facebook/opt-125m"
     = (_discover_running_processes mixed_host, Return limit_response).
Proof. split; [|split]; reflexivity. Qed.

(** ** Starting a registered name *)

Lemma start_live_name_rejected (w : World) (r : registry) (n : string)
    (info : proc_info) (p : Z) :
  Dict.get r n = Some info -> process info = AsyncioProcess p ->
  returncode w p = None ->
  start_server w r n = (r, Return (already_running_response n info)).
Proof.
  intros Hget Hproc Hlive. unfold start_server, get_returncode.
  now rewrite Hget, Hproc, Hlive.
Qed.

Lemma start_exited_name_relaunches (w : World) (r : registry) (n : string)
    (info : proc_info) (p code : Z) :
  Dict.get r n = Some info -> process info = AsyncioProcess p ->
  returncode w p = Some code ->
  start_server w r n = launch w (Dict.del r n) n
  /\ Dict.get (Dict.del r n) n = None.
Proof.
  intros Hget Hproc Hdead. unfold start_server, get_returncode.
  rewrite Hget, Hproc, Hdead. split; [reflexivity|apply get_del_same].
Qed.

Lemma launch_succeeds (w : World) (r : registry) (n : string) (p child : Z) :
  Dict.len r < 3 -> _get_next_free_port w = Some p ->
  create_subprocess_exec w (launch_cmd n p) = Ok child ->
  launch w r n
  = (Dict.set r n (mk_info (AsyncioProcess child) (PortInt p) starting),
     Return (started_response n p)).
Proof.
  intros Hlen Hport Hspawn. unfold launch.
  replace (3 <=? Dict.len r) with false by (symmetry; now apply Z.leb_gt).
  now rewrite Hport, Hspawn.
Qed.

(** C2. Where the code departs from the claim: the name of a discovered
    server carries a [psutil] handle, which has no [returncode]; starting
    that name leaves [start_server] by [AttributeError] instead of returning
    the already-running error. *)
Theorem start_discovered_name_raises :
  forall w,
    Dict.get (_discover_running_processes [serve_gpt2]) "gpt2"
    = Some (mk_info (PsutilProcess 4242) (PortInt 8005) running)
    /\ start_server w (_discover_running_processes [serve_gpt2]) "gpt2"
       = (_discover_running_processes [serve_gpt2], Raise no_returncode_error).
Proof. intros w. split; reflexivity. Qed.

(** ** What [get_status] reports *)

Lemma status_loop_rows (w : World) (items : list (string * proc_info)) :
  forall items' active remove,
    status_loop w items = (items', Ok (active, remove)) ->
    forall row, In row active -> In (row_name row) (Dict.keys items).
Proof.
  induction items as [|[n info] items IH]; simpl; intros items' active remove.
  - intros [= <- <- <-] row [].
  - destruct (is_dead w (process info)) as [dead|e]; [|discriminate].
    destruct (dead && negb (status_eqb (status info) zombie));
      destruct (status_loop w items) as [rest' [[act rem]|e]];
      try discriminate; intros [= <- <- <-] row Hin.
    + right. now apply (IH rest' act rem).
    + destruct Hin as [<-|Hin]; [now left|].
      right. now apply (IH rest' act rem).
Qed.

Lemma status_rows_registered (w : World) (r r' : registry)
    (rep : status_report) :
  get_status w r = (r', Return rep) ->
  forall row, In row (rep_models rep) -> In (row_name row) (Dict.keys r).
Proof.
  unfold get_status.
  destruct (status_loop w r) as [r1 [[active remove]|e]] eqn:E;
    [|discriminate].
  intros [= <- <-] row Hin. simpl in Hin.
  now apply (status_loop_rows w r r1 active remove E).
Qed.

Lemma status_running_flag (w : World) (r r' : registry)
    (rep : status_report) :
  get_status w r = (r', Return rep) ->
  rep_running rep = true <-> rep_models rep <> [].
Proof.
  unfold get_status.
  destruct (status_loop w r) as [r1 [[active remove]|e]]; [|discriminate].
  intros [= <- <-]. simpl. destruct active; simpl.
  - split; [discriminate|congruence].
  - split; [discriminate|reflexivity].
Qed.

(** C3. Where the code departs from the claim: for a discovered entry both
    arms of the liveness test do nothing, so an entry whose process the
    system no longer lists is neither marked dead nor removed; it is still
    reported, as running. *)
Theorem status_keeps_vanished_discovered_entry :
  is_running vanished_world 4242 = false
  /\ get_status vanished_world (_discover_running_processes [serve_gpt2])
     = (_discover_running_processes [serve_gpt2],
        Return (mk_report true [mk_row "gpt2" (PortInt 8005) running])).
Proof. split; reflexivity. Qed.

(** ** Discovery *)

Lemma prefix_app_l (n a b : string) :
  String.prefix n a = true -> String.prefix n (a ++ b) = true.
Proof.
  revert a. induction n as [|c n IH]; intros a.
  - intros _. now destruct (a ++ b).
  - destruct a as [|c' a]; simpl; [discriminate|].
    destruct (ascii_dec c c'); [apply IH|discriminate].
Qed.

Lemma contains_cons (n : string) (c : ascii) (a : string) :
  Py.contains n (String c a)
  = if String.prefix n (String c a) then true else Py.contains n a.
Proof. reflexivity. Qed.

Lemma contains_app_l (n a b : string) :
  Py.contains n a = true -> Py.contains n (a ++ b) = true.
Proof.
  induction a as [|c a IH].
  - destruct n; [intros _|discriminate]. now destruct b.
  - change (String c a ++ b) with (String c (a ++ b)).
    rewrite !contains_cons.
    destruct (String.prefix n (String c a)) eqn:E.
    + intros _. pose proof (prefix_app_l _ _ b E) as E'.
      change (String c a ++ b) with (String c (a ++ b)) in E'.
      now rewrite E'.
    + intros H. rewrite (IH H).
      now destruct (String.prefix n (String c (a ++ b))).
Qed.

Lemma contains_join_head (n sep a : string) (rest : list string) :
  Py.contains n a = true -> Py.contains n (Py.join sep (a :: rest)) = true.
Proof.
  intros H. unfold Py.join. destruct rest as [|b rest]; simpl; [exact H|].
  now apply contains_app_l.
Qed.

Lemma has_serve_iff (args : list string) :
  existsb (String.eqb "serve") args = true <-> In "serve" args.
Proof.
  rewrite existsb_exists. split.
  - intros (x & Hin & Heq). apply String.eqb_eq in Heq. now subst.
  - intros Hin. exists "serve". split; [exact Hin|reflexivity].
Qed.

Lemma follows_cons (key tok a : string) (args : list string) :
  follows key tok args -> follows key tok (a :: args).
Proof. intros (pre & post & ->). now exists (a :: pre), post. Qed.

Lemma follows_inv (key tok a : string) (args : list string) :
  follows key tok (a :: args) ->
  (a = key /\ exists post, args = tok :: post) \/ follows key tok args.
Proof.
  intros (pre & post & H). destruct pre as [|b pre]; simpl in H.
  - injection H as -> ->. left. split; [reflexivity|now exists post].
  - injection H as -> ->. right. now exists pre, post.
Qed.

(** The model name kept by the scan: a token right after some [serve], or
    the initial value when no [serve] is followed by anything. *)
Lemma scan_args_model (args : list string) :
  forall acc,
    follows "serve" (fst (scan_args args acc)) args
    \/ (fst (scan_args args acc) = fst acc
        /\ forall tok, ~ follows "serve" tok args).
Proof.
  induction args as [|arg rest IH]; intros acc; simpl.
  - right. split; [reflexivity|]. intros tok (pre & post & H).
    now destruct pre.
  - destruct rest as [|next rest'].
    + right. split; [reflexivity|]. intros tok (pre & post & H).
      destruct pre as [|a [|b pre]]; discriminate.
    + match goal with |- context [scan_args (next :: rest') ?a] =>
        destruct (IH a) as [Hf|[Heq Hno]] end.
      * left. now apply follows_cons.
      * rewrite Heq. clear Heq.
        destruct (String.eqb arg "serve") eqn:E.
        -- apply String.eqb_eq in E. subst arg. left.
           replace (fst _) with next.
           ++ now exists [], rest'.
           ++ destruct (String.eqb "serve" "--port"); [|reflexivity].
              now destruct (Py.int_of_str next).
        -- right. split.
           ++ destruct (String.eqb arg "--port"); [|reflexivity].
              now destruct (Py.int_of_str next).
           ++ intros tok Hf. apply follows_inv in Hf.
              destruct Hf as [[-> _]|Hf]; [discriminate|].
              now apply (Hno tok).
Qed.

(** The port kept by the scan: the value of a token right after some
    [--port], or the initial value when no such token parses. *)
Lemma scan_args_port (args : list string) :
  forall acc,
    (exists tok, follows "--port" tok args
                 /\ Py.int_of_str tok = Some (snd (scan_args args acc)))
    \/ (snd (scan_args args acc) = snd acc
        /\ forall tok, follows "--port" tok args -> Py.int_of_str tok = None).
Proof.
  induction args as [|arg rest IH]; intros acc; simpl.
  - right. split; [reflexivity|]. intros tok (pre & post & H).
    now destruct pre.
  - destruct rest as [|next rest'].
    + right. split; [reflexivity|]. intros tok (pre & post & H).
      destruct pre as [|a [|b pre]]; discriminate.
    + match goal with |- context [scan_args (next :: rest') ?a] =>
        destruct (IH a) as [(tok & Hf & Hp)|[Heq Hno]] end.
      * left. exists tok. split; [now apply follows_cons|exact Hp].
      * rewrite Heq. clear Heq.
        destruct (String.eqb arg "--port") eqn:E.
        -- apply String.eqb_eq in E. subst arg.
           destruct (Py.int_of_str next) as [p|] eqn:Hint.
           ++ left. exists next. split; [now exists [], rest'|].
              now rewrite Hint.
           ++ right. split; [reflexivity|].
              intros tok Hf. apply follows_inv in Hf.
              destruct Hf as [[_ (post & [= -> _])]|Hf];
                [exact Hint|now apply Hno].
        -- right. split.
           ++ now destruct (String.eqb arg "serve").
           ++ intros tok Hf. apply follows_inv in Hf.
              destruct Hf as [[-> _]|Hf]; [discriminate|now apply Hno].
Qed.

Lemma cmd_str_of_args (p : os_process) (args : list string) :
  cmdline p = Some args -> In "serve" args ->
  cmd_str_of p = Py.join " " args.
Proof.
  intros Hc Hin. unfold cmd_str_of. rewrite Hc.
  destruct args; [destruct Hin|reflexivity].
Qed.

Lemma discover_zombie_empty (p : os_process) :
  discover_zombie Dict.empty p = Dict.empty
  \/ discover_zombie Dict.empty p
     = [(zombie_name (pid p), mk_info (PsutilProcess (pid p)) PortNA zombie)].
Proof.
  unfold discover_zombie.
  destruct (_ || _); [|now left]. destruct (ppid p =? 1); [now right|now left].
Qed.

Lemma registered_as_server_iff (p : os_process) :
  registered_as_server p
  <-> exists args, cmdline p = Some args
                   /\ Py.contains "vllm" (Py.join " " args) = true
                   /\ In "serve" args.
Proof.
  unfold registered_as_server, _discover_running_processes. simpl.
  unfold discover_one. split.
  - intros (n & info & Hreg & Hst).
    assert (Hz : discover_zombie Dict.empty p = [(n, info)] -> False).
    { destruct (discover_zombie_empty p) as [-> | ->];
        [discriminate|]. intros [= <- <-]. discriminate. }
    destruct (Py.contains "vllm" (cmd_str_of p)) eqn:Hv; [|tauto].
    destruct (cmdline p) as [args|] eqn:Hc; [|discriminate].
    destruct (existsb (String.eqb "serve") args) eqn:Hs; [|tauto].
    apply has_serve_iff in Hs. exists args.
    rewrite (cmd_str_of_args p args Hc Hs) in Hv. tauto.
  - intros (args & Hc & Hv & Hs).
    rewrite (cmd_str_of_args p args Hc Hs), Hv, Hc.
    apply has_serve_iff in Hs. rewrite Hs. unfold discover_serving.
    destruct (scan_args args ("Unknown", 8001)) as [m q]. simpl.
    now eexists _, _.
Qed.

Lemma discover_one_serving (r : registry) (p : os_process)
    (args : list string) :
  cmdline p = Some args ->
  Py.contains "vllm" (Py.join " " args) = true -> In "serve" args ->
  discover_one r p
  = Ok (Dict.set r
          (display_name_of (fst (scan_args args ("Unknown", 8001))) (pid p))
          (mk_info (PsutilProcess (pid p))
             (PortInt (snd (scan_args args ("Unknown", 8001)))) running)).
Proof.
  intros Hc Hv Hs. unfold discover_one.
  rewrite (cmd_str_of_args p args Hc Hs), Hv, Hc.
  apply has_serve_iff in Hs. rewrite Hs. unfold discover_serving.
  now destruct (scan_args args ("Unknown", 8001)).
Qed.

(** C4. A scanned process is registered as a running server exactly when its
    joined command line contains [vllm] and [serve] is one of its arguments.
    The model name is then a token right after [serve] ([Unknown] when there
    is none, shown as [Unknown (PID:<pid>)]), and the port the value of a
    token right after [--port] (8001 when there is none that parses).  The
    argv [[...vllm; serve; gpt2; --port; 8005]] gives a running entry [gpt2]
    on port 8005. *)
Theorem discovery_classification :
  (forall p,
     registered_as_server p
     <-> exists args, cmdline p = Some args
                      /\ Py.contains "vllm" (Py.join " " args) = true
                      /\ In "serve" args)
  /\ (forall r p args,
        cmdline p = Some args ->
        Py.contains "vllm" (Py.join " " args) = true -> In "serve" args ->
        exists model port,
          discover_one r p
          = Ok (Dict.set r (display_name_of model (pid p))
                  (mk_info (PsutilProcess (pid p)) (PortInt port) running))
          /\ (follows "serve" model args
              \/ (model = "Unknown"
                  /\ forall tok, ~ follows "serve" tok args))
          /\ ((exists tok, follows "--port" tok args
                           /\ Py.int_of_str tok = Some port)
              \/ (port = 8001
                  /\ forall tok, follows "--port" tok args ->
                                 Py.int_of_str tok = None)))
  /\ (forall pid,
        display_name_of "Unknown" pid
        = "Unknown (PID:" ++ Py.str_of_int pid ++ ")")
  /\ (forall model pid, model <> "Unknown" -> display_name_of model pid = model)
  /\ (forall launcher pid pname parent,
        Py.contains "vllm" launcher = true ->
        _discover_running_processes
          [mk_proc pid pname
             (Some [launcher; "serve"; "gpt2"; "--port"; "8005"]) parent]
        = [("gpt2", mk_info (PsutilProcess pid) (PortInt 8005) running)]).
Proof.
  split; [exact registered_as_server_iff|].
  split; [|split; [|split]].
  - intros r p args Hc Hv Hs.
    exists (fst (scan_args args ("Unknown", 8001))),
           (snd (scan_args args ("Unknown", 8001))).
    split; [now apply discover_one_serving|]. split.
    + apply (scan_args_model args ("Unknown", 8001)).
    + apply (scan_args_port args ("Unknown", 8001)).
  - reflexivity.
  - intros model pid Hne. unfold display_name_of.
    destruct (String.eqb model "Unknown") eqn:E; [|reflexivity].
    apply String.eqb_eq in E. contradiction.
  - intros launcher pid pname parent Hv.
    unfold _discover_running_processes. simpl discover_from.
    rewrite (discover_one_serving Dict.empty _
               [launcher; "serve"; "gpt2"; "--port"; "8005"]).
    + reflexivity.
    + reflexivity.
    + now apply contains_join_head.
    + right. now left.
Qed.

Lemma discovery_classification_witness :
  registered_as_server serve_gpt2
  /\ discover_one Dict.empty serve_gpt2
     = Ok [("gpt2", mk_info (PsutilProcess 4242) (PortInt 8005) running)]
  /\ display_name_of "gpt2" 4242 = "gpt2"
  /\ _discover_running_processes [serve_gpt2]
     = [("gpt2", mk_info (PsutilProcess 4242) (PortInt 8005) running)].
Proof.
  destruct discovery_classification as (Hiff & Hone & _ & Hname & Hex).
  split; [|split; [|split]].
  - apply Hiff. exists ["/opt/venv/bin/vllm"; "serve"; "gpt2"; "--port"; "8005"].
    split; [reflexivity|]. split; [reflexivity|]. right. now left.
  - destruct (Hone Dict.empty serve_gpt2
                ["/opt/venv/bin/vllm"; "serve"; "gpt2"; "--port"; "8005"])
      as (model & port & Heq & _); [reflexivity|reflexivity|right; now left|].
    reflexivity.
  - apply Hname. discriminate.
  - apply (Hex "/opt/venv/bin/vllm" 4242 "vllm" 4000). reflexivity.
Defined.

(** ** Printing and reading back a pid *)

Lemma int_digits_uint (d : Decimal.uint) :
  forall acc,
    Py.int_digits acc (NilEmpty.string_of_uint d)
    = Some (acc * 10 ^ Z.of_N (DecimalPos.Unsigned.usize d)
            + Z.of_N (DecimalPos.Unsigned.of_lu (Decimal.rev d))).
Proof.
  induction d; intros acc;
    [simpl; f_equal; lia | ..];
    cbn [NilEmpty.string_of_uint Py.int_digits];
    match goal with |- context [Py.is_digit ?c] =>
      change (Py.is_digit c) with true; cbv iota end;
    match goal with |- context [Py.digit_value ?c] =>
      let v := eval vm_compute in (Py.digit_value c) in
      change (Py.digit_value c) with v end;
    unfold Decimal.rev; cbn [Decimal.revapp];
    rewrite DecimalPos.Unsigned.of_lu_revapp, IHd; f_equal;
    cbn [DecimalPos.Unsigned.usize DecimalPos.Unsigned.of_lu];
    generalize (DecimalPos.Unsigned.of_lu (Decimal.rev d))
               (DecimalPos.Unsigned.usize d);
    intros L U;
    rewrite !N2Z.inj_add, !N2Z.inj_mul, N2Z.inj_pow, N2Z.inj_succ, Z.pow_succ_r
      by apply N2Z.is_nonneg;
    simpl Z.of_N; ring.
Qed.

Lemma int_of_str_uint (d : Decimal.uint) :
  d <> Decimal.Nil ->
  Py.int_of_str (NilEmpty.string_of_uint d) = Some (Z.of_N (Pos.of_uint d)).
Proof.
  intros Hd. rewrite DecimalPos.Unsigned.of_uint_alt.
  transitivity (Py.int_digits 0 (NilEmpty.string_of_uint d)).
  - destruct d; [contradiction|reflexivity..].
  - rewrite int_digits_uint. f_equal; lia.
Qed.

Lemma span_digits_uint (d : Decimal.uint) (c : ascii) (t : string) :
  Py.is_digit c = false ->
  Py.span_digits (NilEmpty.string_of_uint d ++ String c t)
  = (NilEmpty.string_of_uint d, String c t).
Proof.
  intros Hc. induction d;
    [simpl; now rewrite Hc | ..];
    cbn [NilEmpty.string_of_uint append Py.span_digits];
    match goal with |- context [Py.is_digit ?a] =>
      change (Py.is_digit a) with true; cbv iota end;
    now rewrite IHd.
Qed.

(** The decimal text of a pid: a non-empty digit string that reads back. *)
Lemma str_of_int_digits (n : Z) :
  0 <= n ->
  exists d, d <> Decimal.Nil
            /\ Py.str_of_int n = NilEmpty.string_of_uint d
            /\ Z.of_N (Pos.of_uint d) = n.
Proof.
  intros Hn. destruct n as [|p|p]; [| |lia].
  - exists (Decimal.D0 Decimal.Nil). repeat split. discriminate.
  - exists (Pos.to_uint p).
    pose proof (DecimalPos.Unsigned.to_uint_nonnil p) as Hnn.
    split; [exact Hnn|]. split.
    + unfold Py.str_of_int. simpl. unfold NilZero.string_of_uint.
      destruct (Pos.to_uint p); [contradiction|reflexivity..].
    + now rewrite DecimalPos.Unsigned.of_to.
Qed.

Lemma int_of_str_of_int (n : Z) :
  0 <= n -> Py.int_of_str (Py.str_of_int n) = Some n.
Proof.
  intros Hn. destruct (str_of_int_digits n Hn) as (d & Hd & -> & Hv).
  rewrite int_of_str_uint by exact Hd. now rewrite Hv.
Qed.

Lemma search_zombie_name (pid : Z) :
  0 <= pid ->
  Py.search_paren_digits (zombie_name pid) = Some (Py.str_of_int pid).
Proof.
  intros Hn. destruct (str_of_int_digits pid Hn) as (d & Hd & Hs & _).
  unfold zombie_name. rewrite Hs.
  cbn [append Py.search_paren_digits Ascii.eqb Bool.eqb].
  rewrite span_digits_uint by reflexivity.
  destruct d; [contradiction|reflexivity..].
Qed.

Lemma contains_zombie_name (pid : Z) :
  Py.contains "Zombie Process" (zombie_name pid) = true.
Proof. reflexivity. Qed.

Lemma kill_zombie_pid (w : World) (pid : Z) :
  0 <= pid -> kill_zombie w (zombie_name pid) = kill_pid w pid.
Proof.
  intros Hn. unfold kill_zombie.
  now rewrite search_zombie_name, int_of_str_of_int.
Qed.

(** ** Zombie entries *)

Lemma in_set (d : Dict.t) (k : string) (v : proc_info) (n : string)
    (info : proc_info) :
  In (n, info) (Dict.set d k v) -> (n = k /\ info = v) \/ In (n, info) d.
Proof.
  induction d as [|[k' v'] d IH]; simpl.
  - intros [[= <- <-]|[]]. now left.
  - destruct (String.eqb k k') eqn:E.
    + apply String.eqb_eq in E. subst k'.
      intros [[= <- <-]|H]; [now left|right; now right].
    + intros [H|H]; [right; now left|].
      destruct (IH H) as [H'|H']; [now left|right; now right].
Qed.

Lemma zombies_named_set (r : registry) (k : string) (v : proc_info) :
  zombies_named r ->
  (status v = zombie ->
   exists pid, k = zombie_name pid
               /\ v = mk_info (PsutilProcess pid) PortNA zombie) ->
  zombies_named (Dict.set r k v).
Proof.
  intros Hr Hv n info Hin Hz. apply in_set in Hin.
  destruct Hin as [[-> ->]|Hin]; [now apply Hv|now apply (Hr n info)].
Qed.

Lemma zombies_named_discover_zombie (r : registry) (p : os_process) :
  zombies_named r -> zombies_named (discover_zombie r p).
Proof.
  intros Hr. unfold discover_zombie.
  destruct (_ || _); [|exact Hr]. destruct (ppid p =? 1); [|exact Hr].
  apply zombies_named_set; [exact Hr|]. intros _. now exists (pid p).
Qed.

Lemma zombies_named_discover_one (r r' : registry) (p : os_process) :
  zombies_named r -> discover_one r p = Ok r' -> zombies_named r'.
Proof.
  intros Hr. unfold discover_one.
  destruct (Py.contains "vllm" (cmd_str_of p)).
  - destruct (cmdline p) as [args|]; [|discriminate].
    destruct (existsb (String.eqb "serve") args); intros [= <-].
    + unfold discover_serving.
      destruct (scan_args args ("Unknown", 8001)) as [m q].
      apply zombies_named_set; [exact Hr|]. discriminate.
    + now apply zombies_named_discover_zombie.
  - intros [= <-]. now apply zombies_named_discover_zombie.
Qed.

Lemma zombies_named_discover_from (procs : list os_process) :
  forall r, zombies_named r -> zombies_named (discover_from r procs).
Proof.
  induction procs as [|p procs IH]; intros r Hr; simpl; [exact Hr|].
  destruct (discover_one r p) as [r'|e] eqn:E; [|exact Hr].
  apply IH. now apply (zombies_named_discover_one r r' p).
Qed.

(** ** stop_server *)

Lemma stop_server_named (w : World) (r : registry) (n : string)
    (info : proc_info) :
  n <> "" -> Dict.get r n = Some info ->
  stop_server w r (Some n) = stop_all w r [n].
Proof.
  intros Hn Hget. destruct n as [|c n]; [contradiction|].
  unfold stop_server, Dict.mem. cbn [truthy]. now rewrite Hget.
Qed.

Lemma kill_pid_returns (w : World) (pid : Z) :
  (forall e, os_kill w pid = Some e ->
             caught_by ProcessLookupError e = false ->
             shell_kill w pid = None) ->
  kill_pid w pid = None.
Proof.
  intros H. unfold kill_pid. destruct (os_kill w pid) as [e|]; [|reflexivity].
  destruct (caught_by ProcessLookupError e) eqn:E; [reflexivity|].
  now apply (H e).
Qed.

Lemma stop_zombie_removes (w : World) (r : registry) (pid : Z)
    (info : proc_info) :
  0 <= pid -> Dict.get r (zombie_name pid) = Some info ->
  status info = zombie -> kill_pid w pid = None ->
  stop_server w r (Some (zombie_name pid))
  = (Dict.del r (zombie_name pid),
     mk_response "success" ("Killed zombie " ++ zombie_name pid) None).
Proof.
  intros Hpid Hget Hz Hkill.
  rewrite (stop_server_named w r _ info) by (discriminate || exact Hget).
  unfold stop_all. cbn [fold_left]. unfold stop_target.
  rewrite Hget, contains_zombie_name, Hz, kill_zombie_pid, Hkill by exact Hpid.
  reflexivity.
Qed.

Lemma stop_ordinary_removes (w : World) (r : registry) (n : string)
    (info : proc_info) :
  n <> "" -> Dict.get r n = Some info ->
  Py.contains "Zombie Process" n && status_eqb (status info) zombie = false ->
  fst (stop_server w r (Some n)) = Dict.del r n.
Proof.
  intros Hn Hget Hord. rewrite (stop_server_named w r n info Hn Hget).
  unfold stop_all. cbn [fold_left]. unfold stop_target.
  rewrite Hget, Hord. now destruct (terminate_sequence w (process info)).
Qed.

(** C5 (as amended). A zombie entry created by discovery is named
    [Zombie Process (<pid>)]; stopping that name removes the entry, and no
    later status report lists it, when the signal is sent, when the process
    is reported gone, and when the signal fails otherwise and the fallback
    shell is run. *)
Theorem zombie_stop_removes_entry :
  (forall procs n info,
     In (n, info) (_discover_running_processes procs) ->
     status info = zombie ->
     exists pid, n = zombie_name pid
                 /\ info = mk_info (PsutilProcess pid) PortNA zombie)
  /\ (forall w r pid info,
        0 <= pid ->
        Dict.get r (zombie_name pid) = Some info -> status info = zombie ->
        (forall e, os_kill w pid = Some e ->
                   caught_by ProcessLookupError e = false ->
                   shell_kill w pid = None) ->
        Dict.get (fst (stop_server w r (Some (zombie_name pid))))
          (zombie_name pid) = None
        /\ forall w' r' rep,
             get_status w' (fst (stop_server w r (Some (zombie_name pid))))
             = (r', Return rep) ->
             forall row, In row (rep_models rep) ->
                         row_name row <> zombie_name pid).
Proof.
  split.
  - intros procs. apply zombies_named_discover_from. intros n info [].
  - intros w r pid info Hpid Hget Hz Hkill.
    rewrite (stop_zombie_removes w r pid info Hpid Hget Hz
               (kill_pid_returns w pid Hkill)).
    simpl fst. split; [apply get_del_same|].
    intros w' r' rep Hst row Hin Heq.
    apply (status_rows_registered w' _ r' rep Hst) in Hin.
    rewrite Heq in Hin. revert Hin. apply get_none_not_in, get_del_same.
Qed.

Lemma zombie_stop_removes_entry_witness :
  (exists pid, "Zombie Process (4242)" = zombie_name pid
               /\ mk_info (PsutilProcess 4242) PortNA zombie
                  = mk_info (PsutilProcess pid) PortNA zombie)
  /\ Dict.get (fst (stop_server denied_world lone_zombie
                      (Some (zombie_name 4242))))
       (zombie_name 4242) = None.
Proof.
  destruct zombie_stop_removes_entry as [Hname Hstop]. split.
  - apply (Hname [engine_orphan 4242]); [left; reflexivity|reflexivity].
  - apply (Hstop denied_world lone_zombie 4242
             (mk_info (PsutilProcess 4242) PortNA zombie));
      [lia|reflexivity|reflexivity|].
    intros e _ _. reflexivity.
Defined.

(** C5 (as stated) fails: the name given to a zombie entry does not have the
    form [zombie (pid:<PID>)]. *)
Lemma zombie_name_differs_from_pattern :
  _discover_running_processes [engine_orphan 4242]
  = [("Zombie Process (4242)", mk_info (PsutilProcess 4242) PortNA zombie)]
  /\ ~ (exists pid_text : string,
          "Zombie Process (4242)" = "zombie (pid:" ++ pid_text ++ ")").
Proof.
  split; [reflexivity|]. intros [pid_text H]. discriminate H.
Qed.

(** C6. Where the code departs from the claim: when the direct signal fails
    and the fallback shell cannot be started either, the zombie branch
    reports the error and moves on without deleting the entry, which stays
    registered; the ordinary branch deletes in its handler. *)
Theorem zombie_stop_error_keeps_entry :
  Dict.get lone_zombie "Zombie Process (4242)"
  = Some (mk_info (PsutilProcess 4242) PortNA zombie)
  /\ stop_server hostile_world lone_zombie (Some "Zombie Process (4242)")
     = (lone_zombie,
        mk_response "success"
          ("Error killing zombie Zombie Process (4242): "
           ++ "[Errno 11] Resource temporarily unavailable") None)
  /\ fst (stop_server hostile_world lone_zombie None) = lone_zombie.
Proof. split; [|split]; reflexivity. Qed.

(** ** The result of a stop *)

Lemma stop_target_messages (w : World) (targets : list string) (n : string)
    (st : registry * list string) :
  In n targets ->
  Forall (fun msg => exists t, In t targets /\ target_message t msg) (snd st) ->
  Forall (fun msg => exists t, In t targets /\ target_message t msg)
    (snd (stop_target w st n)).
Proof.
  intros Hin Hst. destruct st as [r results]. unfold stop_target.
  destruct (Dict.get r n) as [info|]; [|exact Hst].
  destruct (Py.contains "Zombie Process" n && status_eqb (status info) zombie);
    [destruct (kill_zombie w n) as [e|]
    |destruct (terminate_sequence w (process info)) as [e|]];
    simpl in *; apply Forall_app; (split; [exact Hst|]);
    constructor; try constructor; exists n; (split; [exact Hin|]);
    unfold target_message.
  - right. left. now exists (exn_msg e).
  - now left.
  - right. right. right. now exists (exn_msg e).
  - right. right. now left.
Qed.

Lemma stop_targets_messages (w : World) (targets : list string) :
  forall (todo : list string) (st : registry * list string),
    incl todo targets ->
    Forall (fun msg => exists t, In t targets /\ target_message t msg)
      (snd st) ->
    Forall (fun msg => exists t, In t targets /\ target_message t msg)
      (snd (fold_left (stop_target w) todo st)).
Proof.
  induction todo as [|n todo IH]; intros st Hincl Hst; simpl; [exact Hst|].
  apply IH.
  - intros x Hx. apply Hincl. now right.
  - apply stop_target_messages; [apply Hincl; now left|exact Hst].
Qed.

Lemma stop_all_success (w : World) (r : registry) (targets : list string) :
  exists results,
    snd (stop_all w r targets)
    = mk_response "success" (Py.join ", " results) None
    /\ Forall (fun msg => exists t, In t targets /\ target_message t msg)
         results.
Proof.
  unfold stop_all.
  pose proof (stop_targets_messages w targets targets (r, [])
                (incl_refl _) (Forall_nil _)) as H.
  destruct (fold_left (stop_target w) targets (r, [])) as [r' results].
  now exists results.
Qed.

(** C10. When the target of a stop resolves - no name is given, or the name
    is registered - the result carries status [success] whatever happened
    to each target; the failures appear only among the per-target reports
    joined into the message. *)
Theorem stop_status_always_success :
  forall w r model_name,
    (forall n, truthy model_name = Some n -> Dict.mem r n = true) ->
    r_status (snd (stop_server w r model_name)) = "success"
    /\ exists results,
         snd (stop_server w r model_name)
         = mk_response "success" (Py.join ", " results) None
         /\ Forall (fun msg => exists t, In t (Dict.keys r)
                                         /\ target_message t msg) results.
Proof.
  intros w r model_name Hres.
  assert (H : exists results,
             snd (stop_server w r model_name)
             = mk_response "success" (Py.join ", " results) None
             /\ Forall (fun msg => exists t, In t (Dict.keys r)
                                             /\ target_message t msg) results).
  { unfold stop_server. destruct (truthy model_name) as [n|] eqn:E.
    - rewrite (Hres n eq_refl).
      destruct (stop_all_success w r [n]) as (results & Heq & Hall).
      exists results. split; [exact Heq|].
      assert (Hn : In n (Dict.keys r)).
      { specialize (Hres n eq_refl). unfold Dict.mem in Hres.
        destruct (Dict.get r n) as [info|] eqn:G; [|discriminate].
        apply get_some_in in G. change n with (fst (n, info)).
        now apply in_map. }
      eapply Forall_impl; [|exact Hall].
      intros msg (t & [<-|[]] & Ht). now exists n.
    - apply stop_all_success. }
  destruct H as (results & Heq & Hall). split.
  - now rewrite Heq.
  - now exists results.
Qed.

Lemma stop_status_always_success_witness :
  r_status (snd (stop_server hostile_world (run Dict.empty four_starts) None))
  = "success"
  /\ r_message
       (snd (stop_server hostile_world (run Dict.empty four_starts) None))
     = "Error stopping structure for gpt2: "
       ++ "[Errno 1] Operation not permitted, "
       ++ "Error stopping structure for facebook/opt-125m: "
       ++ "[Errno 1] Operation not permitted, "
       ++ "Error stopping structure for EleutherAI/pythia-70m: "
       ++ "[Errno 1] Operation not permitted".
Proof.
  split.
  - apply (stop_status_always_success hostile_world
             (run Dict.empty four_starts) None).
    intros n H. discriminate H.
  - reflexivity.
Defined.

(** ** Ports of started entries *)

Lemma int_ports_app (a b : registry) :
  int_ports (a ++ b)%list = (int_ports a ++ int_ports b)%list.
Proof. unfold int_ports. apply flat_map_app. Qed.

Lemma int_ports_del_in (r : registry) (n : string) (q : Z) :
  In q (int_ports (Dict.del r n)) -> In q (int_ports r).
Proof.
  unfold int_ports, Dict.del. rewrite !in_flat_map.
  intros (kv & Hin & Hq). apply filter_In in Hin. exists kv. tauto.
Qed.

Lemma int_ports_del_nodup (r : registry) (n : string) :
  ports_distinct r -> ports_distinct (Dict.del r n).
Proof.
  unfold ports_distinct. induction r as [|[k v] r IH]; [trivial|].
  change (int_ports ((k, v) :: r))
    with ((match port v with PortInt p => [p] | PortNA => [] end)
            ++ int_ports r)%list.
  intros Hnd. unfold Dict.del. cbn [filter fst].
  destruct (negb (String.eqb n k)).
  - change (int_ports ((k, v) :: filter _ r))
      with ((match port v with PortInt p => [p] | PortNA => [] end)
              ++ int_ports (Dict.del r n))%list.
    destruct (port v) as [p|]; simpl in *; [|now apply IH].
    inversion Hnd as [|? ? Hnotin Hnd']; subst. constructor.
    + intros Hin. apply Hnotin. now apply (int_ports_del_in r n).
    + now apply IH.
  - apply IH. destruct (port v); simpl in Hnd; [|exact Hnd].
    now inversion Hnd.
Qed.

Lemma in_int_ports (r : registry) (m : string) (info : proc_info) (q : Z) :
  In (m, info) r -> port info = PortInt q -> In q (int_ports r).
Proof.
  intros Hin Hq. unfold int_ports. apply in_flat_map.
  exists (m, info). split; [exact Hin|]. simpl. rewrite Hq. now left.
Qed.

Lemma launch_started (w : World) (r r' : registry) (n : string)
    (resp : response) (p : Z) :
  launch w r n = (r', Return resp) -> r_port resp = Some p ->
  _get_next_free_port w = Some p
  /\ exists child,
       r' = Dict.set r n (mk_info (AsyncioProcess child) (PortInt p) starting).
Proof.
  unfold launch. destruct (3 <=? Dict.len r).
  - intros [= <- <-]. discriminate.
  - destruct (_get_next_free_port w) as [q|]; [|discriminate].
    destruct (create_subprocess_exec w (launch_cmd n q)) as [child|e].
    + intros [= <- <-] [= <-]. split; [reflexivity|now exists child].
    + intros [= <- <-]. discriminate.
Qed.

Lemma start_server_started (w : World) (r r' : registry) (n : string)
    (resp : response) (p : Z) :
  start_server w r n = (r', Return resp) -> r_port resp = Some p ->
  _get_next_free_port w = Some p
  /\ exists child,
       r' = (Dict.del r n
             ++ [(n, mk_info (AsyncioProcess child) (PortInt p) starting)])%list.
Proof.
  unfold start_server. destruct (Dict.get r n) as [info|] eqn:G.
  - destruct (get_returncode w (process info)) as [[code|]|e].
    + intros H Hp. destruct (launch_started w _ r' n resp p H Hp)
        as (Hport & child & ->).
      split; [exact Hport|]. exists child.
      apply set_absent, get_del_same.
    + intros [= <- <-]. discriminate.
    + discriminate.
  - intros H Hp. destruct (launch_started w _ r' n resp p H Hp)
      as (Hport & child & ->).
    split; [exact Hport|]. exists child.
    rewrite set_absent by exact G. f_equal.
    unfold Dict.del. symmetry. apply forallb_filter_id.
    apply forallb_forall. intros [k v] Hin. simpl.
    destruct (String.eqb n k) eqn:E; [|reflexivity].
    apply String.eqb_eq in E. subst k. exfalso.
    apply (proj1 (get_none_not_in r n) G).
    change n with (fst (n, v)). now apply in_map.
Qed.

(** C8 (as amended). A successful start is given the lowest port from 8001
    up whose connect probe fails at that moment, and the registry is not
    consulted.  The port therefore differs from the port of every registered
    entry whose port already answers; and when the ports of the registered
    entries are pairwise distinct and all answer, they are still pairwise
    distinct after the start. *)
Theorem start_port_fresh_among_bound_ports :
  forall w r model_name r' resp p,
    start_server w r model_name = (r', Return resp) ->
    r_port resp = Some p ->
    (base_port <= p /\ _is_port_in_use w p = false
     /\ forall q, base_port <= q < p -> _is_port_in_use w q = true)
    /\ (exists child,
          Dict.get r' model_name
          = Some (mk_info (AsyncioProcess child) (PortInt p) starting))
    /\ (forall m info q,
          In (m, info) r -> port info = PortInt q ->
          _is_port_in_use w q = true -> q <> p)
    /\ (ports_distinct r -> ports_answer w r -> ports_distinct r').
Proof.
  intros w r n r' resp p Hstart Hp.
  destruct (start_server_started w r r' n resp p Hstart Hp)
    as (Hport & child & ->).
  pose proof (scan_ports_sound w _ _ _ Hport) as (Hle & Hfree & Hbusy).
  split; [now repeat split|]. split; [|split].
  - exists child. rewrite <- (set_absent _ _ _ (get_del_same r n)).
    apply get_set_same.
  - intros m info q _ _ Hq ->. congruence.
  - intros Hnd Hans. unfold ports_distinct. rewrite int_ports_app.
    simpl. apply NoDup_app.
    + now apply int_ports_del_nodup.
    + repeat constructor. intros [].
    + intros q Hq [<-|[]]. apply int_ports_del_in in Hq.
      apply Hans in Hq. congruence.
Qed.

Lemma start_port_fresh_among_bound_ports_witness :
  (base_port <= 8003 /\ _is_port_in_use busy_world 8003 = false
   /\ forall q, base_port <= q < 8003 -> _is_port_in_use busy_world q = true)
  /\ (exists child,
        Dict.get (fst (start_server busy_world
                         (_discover_running_processes [serve_gpt2])
                         "facebook/opt-125m")) "facebook/opt-125m"
        = Some (mk_info (AsyncioProcess child) (PortInt 8003) starting)).
Proof.
  destruct (start_port_fresh_among_bound_ports busy_world
              (_discover_running_processes [serve_gpt2]) "facebook/opt-125m"
              (fst (start_server busy_world
                      (_discover_running_processes [serve_gpt2])
                      "facebook/opt-125m"))
              (started_response "facebook/opt-125m" 8003) 8003
              eq_refl eq_refl) as (H1 & H2 & _).
  split; [exact H1|exact H2].
Defined.

(** C8 (as stated) fails: two starts issued before the first child listens
    are both given port 8001. *)
Lemma two_starts_share_port :
  run Dict.empty two_starts
  = [("facebook/opt-125m",
      mk_info (AsyncioProcess 1017) (PortInt 8001) starting);
     ("gpt2", mk_info (AsyncioProcess 1004) (PortInt 8001) starting)]
  /\ ~ ports_distinct (run Dict.empty two_starts).
Proof.
  split; [reflexivity|]. intros H. inversion H as [|? ? Hnotin _]; subst.
  apply Hnotin. now left.
Qed.

(** ** Repeated status queries *)

Lemma refresh_process (w : World) (info : proc_info) :
  process (refresh w info) = process info.
Proof.
  unfold refresh. destruct (status info), (port info) as [p|];
    try reflexivity. now destruct (_is_port_in_use w p).
Qed.

Lemma refresh_zombie (w : World) (info : proc_info) :
  status_eqb (status (refresh w info)) zombie
  = status_eqb (status info) zombie.
Proof.
  unfold refresh. destruct (status info) eqn:S, (port info) as [p|];
    rewrite ?S; try reflexivity.
  destruct (_is_port_in_use w p); simpl; now rewrite ?S.
Qed.

Lemma refresh_idem (w : World) (info : proc_info) :
  refresh w (refresh w info) = refresh w info.
Proof.
  destruct info as [proc [p|] []]; unfold refresh; simpl; try reflexivity.
  destruct (_is_port_in_use w p) eqn:U; simpl; now rewrite ?U.
Qed.

Lemma dels_filter (names : list string) :
  forall d, fold_left Dict.del names d = filter (unmarked names) d.
Proof.
  induction names as [|n names IH]; intros d; simpl.
  - symmetry. apply forallb_filter_id. now apply forallb_forall.
  - rewrite IH. unfold Dict.del. induction d as [|kv d IHd]; [reflexivity|].
    simpl. unfold unmarked at 2. simpl.
    rewrite (String.eqb_sym (fst kv) n).
    destruct (String.eqb n (fst kv)); simpl.
    + exact IHd.
    + fold (unmarked names kv). destruct (unmarked names kv);
        now rewrite IHd.
Qed.

Lemma status_loop_marked (w : World) (items : list (string * proc_info)) :
  forall items' active remove,
    status_loop w items = (items', Ok (active, remove)) ->
    incl remove (Dict.keys items).
Proof.
  induction items as [|[n info] items IH]; simpl; intros items' active remove.
  - intros [= <- <- <-] x [].
  - destruct (is_dead w (process info)) as [dead|e]; [|discriminate].
    destruct (dead && negb (status_eqb (status info) zombie));
      destruct (status_loop w items) as [rest' [[act rem]|e]];
      try discriminate; intros [= <- <- <-] x Hin.
    + destruct Hin as [<-|Hin]; [now left|].
      right. now apply (IH rest' act rem).
    + right. now apply (IH rest' act rem).
Qed.

Lemma unmarked_absent (names : list string) (n : string) (info : proc_info) :
  ~ In n names -> unmarked names (n, info) = true.
Proof.
  intros H. unfold unmarked. simpl. apply negb_true_iff.
  destruct (existsb (String.eqb n) names) eqn:E; [|reflexivity].
  apply existsb_exists in E. destruct E as (x & Hin & Heq).
  apply String.eqb_eq in Heq. now subst.
Qed.

Lemma unmarked_head (names : list string) (n : string) (info : proc_info) :
  unmarked (n :: names) (n, info) = false.
Proof. unfold unmarked. simpl. now rewrite String.eqb_refl. Qed.

Lemma filter_unmarked_cons (n : string) (names : list string)
    (d : list (string * proc_info)) :
  ~ In n (Dict.keys d) ->
  filter (unmarked (n :: names)) d = filter (unmarked names) d.
Proof.
  intros Hn. apply filter_ext_in. intros [k v] Hin.
  unfold unmarked. simpl. destruct (String.eqb k n) eqn:E; [|reflexivity].
  apply String.eqb_eq in E. subst k. exfalso. apply Hn.
  change n with (fst (n, v)). now apply in_map.
Qed.

(** After the purge the loop finds nothing left to change. *)
Lemma status_loop_settled (w : World) (items : list (string * proc_info)) :
  Dict.wf items ->
  forall items' active remove,
    status_loop w items = (items', Ok (active, remove)) ->
    status_loop w (filter (unmarked remove) items')
    = (filter (unmarked remove) items', Ok (active, [])).
Proof.
  unfold Dict.wf.
  induction items as [|[n info] items IH]; simpl; intros Hwf items' active remove.
  - now intros [= <- <- <-].
  - inversion Hwf as [|? ? Hnotin Hwf']; subst.
    destruct (is_dead w (process info)) as [dead|e] eqn:D; [|discriminate].
    pose proof (status_loop_keys w items) as Hkeys.
    pose proof (status_loop_marked w items) as Hmarked.
    destruct (dead && negb (status_eqb (status info) zombie)) eqn:C;
      destruct (status_loop w items) as [rest' [[act rem]|e]];
      try discriminate; intros [= <- <- <-];
      simpl in Hkeys; specialize (IH Hwf' rest' act rem eq_refl);
      specialize (Hmarked rest' act rem eq_refl).
    + cbn [filter]. rewrite unmarked_head.
      rewrite filter_unmarked_cons by now rewrite Hkeys.
      exact IH.
    + cbn [filter]. rewrite unmarked_absent
        by (intros Hin; apply Hnotin; now apply Hmarked).
      cbn [status_loop].
      rewrite refresh_process, D, refresh_zombie, C, refresh_idem, IH.
      reflexivity.
Qed.

Lemma get_status_settled (w : World) (r r1 : registry) (rep : status_report) :
  Dict.wf r -> get_status w r = (r1, Return rep) ->
  get_status w r1 = (r1, Return rep).
Proof.
  intros Hwf. unfold get_status at 1.
  destruct (status_loop w r) as [r' [[active remove]|e]] eqn:E;
    [|discriminate].
  intros [= <- <-]. rewrite dels_filter. unfold get_status.
  now rewrite (status_loop_settled w r Hwf r' active remove E).
Qed.

Lemma poll_settled (w : World) (r1 : registry) (rep : status_report) :
  get_status w r1 = (r1, Return rep) ->
  forall k, poll w k r1 = (r1, Return rep).
Proof.
  intros H. induction k as [|k IH]; simpl; [exact H|]. now rewrite H.
Qed.

(** C9. With no start or stop in between and the system answering as
    before, every further status query returns the models list of the first
    one, entry for entry, and the same running flag. *)
Theorem status_idempotent :
  forall w r r1 rep1,
    Dict.wf r ->
    get_status w r = (r1, Return rep1) ->
    forall k, exists rep,
      poll w k r1 = (r1, Return rep)
      /\ Permutation (rep_models rep) (rep_models rep1)
      /\ rep_models rep = rep_models rep1
      /\ rep_running rep = rep_running rep1.
Proof.
  intros w r r1 rep1 Hwf Hfirst k. exists rep1.
  split; [|now repeat split].
  apply poll_settled. now apply (get_status_settled w r).
Qed.

Lemma status_idempotent_witness :
  exists rep,
    poll busy_world 2 (fst (get_status busy_world (run Dict.empty two_starts)))
    = (fst (get_status busy_world (run Dict.empty two_starts)), Return rep)
    /\ Permutation (rep_models rep)
         [mk_row "facebook/opt-125m" (PortInt 8001) running;
          mk_row "gpt2" (PortInt 8001) running]
    /\ rep_models rep
       = [mk_row "facebook/opt-125m" (PortInt 8001) running;
          mk_row "gpt2" (PortInt 8001) running]
    /\ rep_running rep = true.
Proof.
  apply (status_idempotent busy_world (run Dict.empty two_starts)
           (fst (get_status busy_world (run Dict.empty two_starts)))
           (mk_report true
              [mk_row "facebook/opt-125m" (PortInt 8001) running;
               mk_row "gpt2" (PortInt 8001) running])).
  - unfold Dict.wf. simpl. repeat constructor; simpl; intuition discriminate.
  - reflexivity.
Defined.

(** ** Every registry the manager holds is a dict *)

Lemma keys_set_in (d : Dict.t) (k : string) (v : proc_info) (x : string) :
  In x (Dict.keys (Dict.set d k v)) -> x = k \/ In x (Dict.keys d).
Proof.
  induction d as [|[k' v'] d IH]; simpl.
  - intros [<-|[]]. now left.
  - destruct (String.eqb k k'); simpl; [tauto|].
    intros [<-|H]; [right; now left|]. destruct (IH H); tauto.
Qed.

Lemma wf_set (d : Dict.t) (k : string) (v : proc_info) :
  Dict.wf d -> Dict.wf (Dict.set d k v).
Proof.
  unfold Dict.wf. induction d as [|[k' v'] d IH]; simpl.
  - intros _. repeat constructor. intros [].
  - intros Hnd. inversion Hnd as [|? ? Hnotin Hnd']; subst.
    destruct (String.eqb k k') eqn:E; simpl; [exact Hnd|].
    apply String.eqb_neq in E. constructor; [|now apply IH].
    intros Hin. apply keys_set_in in Hin. destruct Hin; congruence.
Qed.

Lemma keys_del_in (d : Dict.t) (k x : string) :
  In x (Dict.keys (Dict.del d k)) -> In x (Dict.keys d).
Proof.
  unfold Dict.keys, Dict.del. rewrite !in_map_iff.
  intros (kv & Hx & Hin). apply filter_In in Hin. exists kv. tauto.
Qed.

Lemma wf_del (d : Dict.t) (k : string) : Dict.wf d -> Dict.wf (Dict.del d k).
Proof.
  unfold Dict.wf. induction d as [|[k' v'] d IH]; simpl; [trivial|].
  intros Hnd. inversion Hnd as [|? ? Hnotin Hnd']; subst.
  destruct (negb (String.eqb k k')); simpl; [|now apply IH].
  constructor; [|now apply IH].
  intros Hin. apply Hnotin. now apply (keys_del_in d k).
Qed.

Lemma wf_dels (names : list string) :
  forall d, Dict.wf d -> Dict.wf (fold_left Dict.del names d).
Proof.
  induction names as [|n names IH]; intros d H; simpl; [exact H|].
  apply IH. now apply wf_del.
Qed.

Lemma wf_launch (w : World) (r : registry) (n : string) :
  Dict.wf r -> Dict.wf (fst (launch w r n)).
Proof.
  intros H. unfold launch. destruct (3 <=? Dict.len r); [exact H|].
  destruct (_get_next_free_port w) as [p|]; [|exact H].
  destruct (create_subprocess_exec w _); [|exact H]. now apply wf_set.
Qed.

Lemma wf_start_server (w : World) (r : registry) (n : string) :
  Dict.wf r -> Dict.wf (fst (start_server w r n)).
Proof.
  intros H. unfold start_server.
  destruct (Dict.get r n) as [info|]; [|now apply wf_launch].
  destruct (get_returncode w (process info)) as [[code|]|e]; try exact H.
  apply wf_launch. now apply wf_del.
Qed.

Lemma wf_stop_target (w : World) (st : registry * list string) (n : string) :
  Dict.wf (fst st) -> Dict.wf (fst (stop_target w st n)).
Proof.
  destruct st as [r results]. simpl. intros H. unfold stop_target.
  pose proof (wf_del r n H).
  destruct (Dict.get r n) as [info|]; [|exact H].
  destruct (Py.contains "Zombie Process" n && status_eqb (status info) zombie).
  - now destruct (kill_zombie w n).
  - now destruct (terminate_sequence w (process info)).
Qed.

Lemma wf_stop_server (w : World) (r : registry) (m : option string) :
  Dict.wf r -> Dict.wf (fst (stop_server w r m)).
Proof.
  intros H.
  assert (Hall : forall targets, Dict.wf (fst (stop_all w r targets))).
  { intros targets. unfold stop_all.
    assert (Hfold : forall st, Dict.wf (fst st) ->
              Dict.wf (fst (fold_left (stop_target w) targets st))).
    { induction targets as [|t targets IH]; intros st Hst; simpl;
        [exact Hst|]. apply IH. now apply wf_stop_target. }
    specialize (Hfold (r, []) H).
    now destruct (fold_left (stop_target w) targets (r, [])). }
  unfold stop_server. destruct (truthy m) as [n|]; [|apply Hall].
  destruct (Dict.mem r n); [apply Hall|exact H].
Qed.

Lemma wf_get_status (w : World) (r : registry) :
  Dict.wf r -> Dict.wf (fst (get_status w r)).
Proof.
  intros H. unfold get_status. pose proof (status_loop_keys w r) as Hk.
  destruct (status_loop w r) as [r' [[active remove]|e]]; simpl in *.
  - apply wf_dels. unfold Dict.wf. now rewrite Hk.
  - unfold Dict.wf. now rewrite Hk.
Qed.

Lemma wf_run (calls : list (World * call)) :
  forall r, Dict.wf r -> Dict.wf (run r calls).
Proof.
  unfold run. induction calls as [|[w c] calls IH]; intros r H; simpl;
    [exact H|]. apply IH. destruct c as [n|m|]; simpl.
  - now apply wf_start_server.
  - now apply wf_stop_server.
  - now apply wf_get_status.
Qed.

Lemma wf_discover (procs : list os_process) :
  Dict.wf (_discover_running_processes procs).
Proof.
  unfold _discover_running_processes.
  assert (H : forall r, Dict.wf r -> Dict.wf (discover_from r procs)).
  { induction procs as [|p procs IH]; intros r Hr; simpl; [exact Hr|].
    destruct (discover_one r p) as [r'|e] eqn:E; [|exact Hr].
    apply IH. unfold discover_one in E.
    assert (Hz : Dict.wf (discover_zombie r p)).
    { unfold discover_zombie. destruct (_ || _); [|exact Hr].
      destruct (ppid p =? 1); [now apply wf_set|exact Hr]. }
    destruct (Py.contains "vllm" (cmd_str_of p)).
    - destruct (cmdline p) as [args|]; [|discriminate].
      destruct (existsb (String.eqb "serve") args);
        injection E as <-; [|exact Hz].
      unfold discover_serving.
      destruct (scan_args args ("Unknown", 8001)). now apply wf_set.
    - now injection E as <-. }
  apply H. constructor.
Qed.

(** * Further properties of the manager *)

(** ** Starting a name the manager spawned itself *)

Lemma len_del_present (d : Dict.t) (k : string) (v : proc_info) :
  Dict.get d k = Some v -> Dict.len (Dict.del d k) < Dict.len d.
Proof.
  unfold Dict.len, Dict.del. induction d as [|[k' v'] d IH]; simpl;
    [discriminate|].
  destruct (String.eqb k k') eqn:E; simpl.
  - intros _.
    pose proof (filter_length_le (fun kv => negb (String.eqb k (fst kv))) d).
    lia.
  - intros H. specialize (IH H). lia.
Qed.

(** X1. For a registered name whose handle is the manager's own child: while
    the child has not exited the start is refused with the already-running
    error, which names the entry's port, and nothing changes; once it has
    exited the stale entry is dropped before the capacity test, so the start
    goes through even with three entries registered, and the new entry goes
    to the end of the registry. *)
Theorem start_self_spawned_name :
  forall w r model_name info child,
    Dict.get r model_name = Some info ->
    process info = AsyncioProcess child ->
    (returncode w child = None ->
       start_server w r model_name
       = (r, Return (error_response
                       ("Model " ++ model_name
                        ++ " is already running on port "
                        ++ str_of_port (port info)))))
    /\ (forall code p child',
          returncode w child = Some code ->
          Dict.len r <= 3 ->
          _get_next_free_port w = Some p ->
          create_subprocess_exec w (launch_cmd model_name p) = Ok child' ->
          start_server w r model_name
          = ((Dict.del r model_name
              ++ [(model_name,
                   mk_info (AsyncioProcess child') (PortInt p) starting)])%list,
             Return (started_response model_name p))).
Proof.
  intros w r n info child Hget Hproc. split.
  - intros Hlive. now apply (start_live_name_rejected w r n info child).
  - intros code p child' Hdead Hlen Hport Hspawn.
    destruct (start_exited_name_relaunches w r n info child code
                Hget Hproc Hdead) as [-> Hgone].
    pose proof (len_del_present r n info Hget) as Hlt.
    rewrite (launch_succeeds w (Dict.del r n) n p child') by (lia || assumption).
    now rewrite set_absent by exact Hgone.
Qed.

Lemma start_self_spawned_name_witness :
  start_server busy_world (run Dict.empty four_starts) "gpt2"
  = (run Dict.empty four_starts,
     Return (error_response "Model gpt2 is already running on port 8001"))
  /\ start_server exited_world (run Dict.empty four_starts) "gpt2"
     = ([("facebook/opt-125m",
          mk_info (AsyncioProcess 1017) (PortInt 8001) starting);
         ("EleutherAI/pythia-70m",
          mk_info (AsyncioProcess 1021) (PortInt 8001) starting);
         ("gpt2", mk_info (AsyncioProcess 1004) (PortInt 8001) starting)],
        Return (started_response "gpt2" 8001)).
Proof.
  split.
  - apply (proj1 (start_self_spawned_name busy_world
                    (run Dict.empty four_starts) "gpt2"
                    (mk_info (AsyncioProcess 1004) (PortInt 8001) starting)
                    1004 eq_refl eq_refl)).
    reflexivity.
  - apply (proj2 (start_self_spawned_name exited_world
                    (run Dict.empty four_starts) "gpt2"
                    (mk_info (AsyncioProcess 1004) (PortInt 8001) starting)
                    1004 eq_refl eq_refl) 0 8001 1004);
      [reflexivity|vm_compute; discriminate|reflexivity|reflexivity].
Defined.

(** ** The range of the port scan *)

Lemma scan_ports_none (w : World) (fuel : nat) :
  forall base,
    scan_ports w fuel base = None ->
    forall q, base <= q < base + Z.of_nat fuel -> _is_port_in_use w q = true.
Proof.
  induction fuel as [|fuel IH]; intros base H q Hq; [lia|].
  simpl in H. destruct (_is_port_in_use w base) eqn:E; [|discriminate].
  destruct (Z.eq_dec q base) as [->|Hne]; [exact E|].
  apply (IH (base + 1) H). lia.
Qed.

Lemma scan_ports_all_busy (w : World) (fuel : nat) :
  forall base,
    (forall q, base <= q -> _is_port_in_use w q = true) ->
    scan_ports w fuel base = None.
Proof.
  induction fuel as [|fuel IH]; intros base H; simpl; [reflexivity|].
  rewrite H by lia. apply IH. intros q Hq. apply H. lia.
Qed.

(** X2. The allocator only ever returns a port of 8001..65535; it fails to
    return exactly when every one of those ports is in use, and then a start
    that reaches the allocator never returns and registers nothing. *)
Theorem next_free_port_range_or_diverges :
  forall w,
    (forall p, _get_next_free_port w = Some p -> 8001 <= p <= 65535)
    /\ (_get_next_free_port w = None
        <-> forall p, 8001 <= p <= 65535 -> _is_port_in_use w p = true)
    /\ (forall r model_name,
          _get_next_free_port w = None ->
          Dict.get r model_name = None -> Dict.len r < 3 ->
          start_server w r model_name = (r, Diverges)).
Proof.
  intros w. split; [|split].
  - intros p H. apply scan_ports_sound in H. destruct H as (Hle & Hfree & _).
    apply free_port_in_range in Hfree. unfold base_port in Hle. lia.
  - split.
    + intros H p Hp.
      apply (scan_ports_none w (scan_bound base_port) base_port H).
      unfold scan_bound, base_port. rewrite Z2Nat.id; lia.
    + intros H. apply scan_ports_all_busy. intros q Hq.
      destruct (Z_le_gt_dec q 65535) as [Hle|Hgt].
      * apply H. unfold base_port in Hq. lia.
      * apply port_above_range_in_use. lia.
  - intros r n Hnone Hget Hlen. unfold start_server, launch.
    rewrite Hget, Hnone.
    now replace (3 <=? Dict.len r) with false by (symmetry; now apply Z.leb_gt).
Qed.

Lemma next_free_port_range_or_diverges_witness :
  8001 <= 8003 <= 65535.
Proof.
  apply (proj1 (next_free_port_range_or_diverges busy_world) 8003).
  reflexivity.
Defined.

(** ** A server the manager launched, seen again by discovery *)

Lemma str_of_int_head (n : Z) :
  0 <= n ->
  exists c rest, Py.str_of_int n = String c rest /\ Py.is_digit c = true.
Proof.
  intros Hn. destruct (str_of_int_digits n Hn) as (d & Hd & -> & _).
  destruct d; [contradiction|..]; simpl; eexists _, _; split; reflexivity.
Qed.

Lemma scan_args_other (arg next : string) (rest : list string)
    (acc : string * Z) :
  String.eqb arg "serve" = false -> String.eqb arg "--port" = false ->
  scan_args (arg :: next :: rest) acc = scan_args (next :: rest) acc.
Proof. intros Hs Hp. cbn [scan_args]. now rewrite Hs, Hp. Qed.

Lemma scan_args_serve (next : string) (rest : list string) (acc : string * Z) :
  scan_args ("serve" :: next :: rest) acc
  = scan_args (next :: rest) (next, snd acc).
Proof. reflexivity. Qed.

Lemma scan_args_port_ok (next : string) (rest : list string)
    (acc : string * Z) (p : Z) :
  Py.int_of_str next = Some p ->
  scan_args ("--port" :: next :: rest) acc
  = scan_args (next :: rest) (fst acc, p).
Proof.
  intros H. cbn [scan_args].
  change (String.eqb "--port" "serve") with false.
  change (String.eqb "--port" "--port") with true.
  cbv iota. now rewrite H.
Qed.

Lemma scan_args_port_bad (next : string) (rest : list string)
    (acc : string * Z) :
  Py.int_of_str next = None ->
  scan_args ("--port" :: next :: rest) acc = scan_args (next :: rest) acc.
Proof.
  intros H. cbn [scan_args].
  change (String.eqb "--port" "serve") with false.
  change (String.eqb "--port" "--port") with true.
  cbv iota. now rewrite H.
Qed.

Lemma scan_args_launch_cmd (model_name : string) (p : Z) :
  model_name <> "serve" -> 0 <= p ->
  scan_args (launch_cmd model_name p) ("Unknown", 8001) = (model_name, p).
Proof.
  intros Hm Hp. apply String.eqb_neq in Hm.
  pose proof (int_of_str_of_int p Hp) as Hint.
  destruct (str_of_int_head p Hp) as (c & rest & Hs & Hc).
  assert (Hserve : String.eqb (Py.str_of_int p) "serve" = false).
  { rewrite Hs. apply String.eqb_neq. intros [= -> _]. discriminate Hc. }
  assert (Hport : String.eqb (Py.str_of_int p) "--port" = false).
  { rewrite Hs. apply String.eqb_neq. intros [= -> _]. discriminate Hc. }
  unfold launch_cmd. cbn [app].
  rewrite scan_args_other by reflexivity.
  rewrite scan_args_serve. cbn [snd].
  assert (Hmodel : forall l acc,
            scan_args (model_name :: "--port" :: l) acc
            = scan_args ("--port" :: l) acc).
  { intros l acc. destruct (String.eqb model_name "--port") eqn:E.
    - apply String.eqb_eq in E. subst model_name.
      now apply scan_args_port_bad.
    - now apply scan_args_other. }
  rewrite Hmodel, (scan_args_port_ok _ _ _ p Hint). cbn [fst].
  destruct (needs_chat_template model_name); cbn [app];
    rewrite (scan_args_other (Py.str_of_int p)) by assumption;
    repeat (rewrite scan_args_other by reflexivity);
    reflexivity.
Qed.

Lemma contains_app_r (n a b : string) :
  Py.contains n b = true -> Py.contains n (a ++ b) = true.
Proof.
  intros H. induction a as [|c a IH]; [exact H|].
  change (String c a ++ b) with (String c (a ++ b)).
  rewrite contains_cons, IH. now destruct (String.prefix n _).
Qed.

Lemma contains_join_mem (n sep a : string) (parts : list string) :
  In a parts -> Py.contains n a = true ->
  Py.contains n (Py.join sep parts) = true.
Proof.
  intros Hin Ha. unfold Py.join.
  induction parts as [|x parts IH]; [destruct Hin|].
  destruct Hin as [->|Hin].
  - now apply (contains_join_head n sep a parts).
  - destruct parts as [|y parts]; [destruct Hin|].
    change (String.concat sep (x :: y :: parts))
      with (x ++ sep ++ String.concat sep (y :: parts)).
    apply contains_app_r, contains_app_r. now apply IH.
Qed.

Lemma scan_args_skip (pre : list string) :
  forall args acc,
    Forall (fun t => t <> "serve" /\ t <> "--port") pre ->
    scan_args (pre ++ args) acc = scan_args args acc.
Proof.
  induction pre as [|t pre IH]; intros args acc Hpre; [reflexivity|].
  inversion Hpre as [|? ? [Hs Hp] Hpre']; subst.
  apply String.eqb_neq in Hs, Hp.
  change ((t :: pre) ++ args)%list with (t :: (pre ++ args))%list.
  destruct (pre ++ args)%list as [|next rest] eqn:E.
  - apply app_eq_nil in E. destruct E as [-> ->]. reflexivity.
  - rewrite scan_args_other by assumption. rewrite <- E. now apply IH.
Qed.

(** X3. What [start_server] launches, discovery reads back: a process whose
    command line ends with the launch command for a model and port - after
    an interpreter path, say - is registered as a running server on that
    port under that model's display name.  The one exception is a model
    called [serve], whose own name is then taken for the keyword. *)
Theorem launched_server_rediscovered :
  forall r pre model_name p child pname parent,
    Forall (fun t => t <> "serve" /\ t <> "--port") pre ->
    model_name <> "serve" -> 0 <= p ->
    discover_one r
      (mk_proc child pname (Some (pre ++ launch_cmd model_name p)%list) parent)
    = Ok (Dict.set r (display_name_of model_name child)
            (mk_info (PsutilProcess child) (PortInt p) running)).
Proof.
  intros r pre m p child pname parent Hpre Hm Hp.
  rewrite (discover_one_serving r _ (pre ++ launch_cmd m p)%list).
  - cbn [pid]. now rewrite scan_args_skip, scan_args_launch_cmd.
  - reflexivity.
  - apply (contains_join_mem "vllm" " " vllm_path); [|reflexivity].
    apply in_or_app. right. now left.
  - apply in_or_app. right. right. now left.
Qed.

Lemma launched_server_rediscovered_witness :
  discover_one Dict.empty
    (mk_proc 1017 "python3"
       (Some ("/home/sinergi/AI/vllm/venv/bin/python3"
              :: launch_cmd "facebook/opt-125m" 8003)) 1)
  = Ok [("facebook/opt-125m",
         mk_info (PsutilProcess 1017) (PortInt 8003) running)]
  /\ fst (scan_args (launch_cmd "serve" 8003) ("Unknown", 8001)) = "--port".
Proof.
  split; [|reflexivity].
  apply (launched_server_rediscovered Dict.empty
           ["/home/sinergi/AI/vllm/venv/bin/python3"]
           "facebook/opt-125m" 8003 1017 "python3" 1); [|discriminate|lia].
  repeat constructor; discriminate.
Defined.

(** ** An unreadable command line ends the scan *)

Lemma discover_from_cut (before : list os_process) :
  forall r p after,
    (forall r', exists e, discover_one r' p = Fail e) ->
    discover_from r (before ++ p :: after) = discover_from r before.
Proof.
  induction before as [|q before IH]; intros r p after Hfail; simpl.
  - destruct (Hfail r) as (e & ->). reflexivity.
  - destruct (discover_one r q) as [r'|e]; [|reflexivity].
    now apply IH.
Qed.

(** X4. A scanned process whose command line psutil could not read and
    whose name contains [vllm] raises [TypeError] in the loop body; the
    outer handler ends the scan there, so the registry is the one of the
    processes scanned before it and nothing that comes after is
    registered. *)
Theorem unreadable_cmdline_ends_scan :
  forall before p after,
    cmdline p = None -> Py.contains "vllm" (name p) = true ->
    _discover_running_processes (before ++ p :: after)
    = _discover_running_processes before.
Proof.
  intros before p after Hc Hv. unfold _discover_running_processes.
  apply discover_from_cut.
  intros r'. unfold discover_one, cmd_str_of. rewrite Hc, Hv. now eexists.
Qed.

Lemma unreadable_cmdline_ends_scan_witness :
  _discover_running_processes ([serve_gpt2] ++ defunct_vllm :: four_servers)
  = _discover_running_processes [serve_gpt2]
  /\ Dict.len (_discover_running_processes four_servers) = 4.
Proof.
  split; [|reflexivity].
  apply (unreadable_cmdline_ends_scan [serve_gpt2] defunct_vllm four_servers);
    reflexivity.
Defined.

(** ** Stopping a zombie entry *)

(** X5. The pid that discovery writes into a zombie entry's name is the pid
    that [stop_server] signals.  The entry is removed exactly when the kill
    attempt ends without an exception: the signal was sent, the process was
    already gone, or the fallback shell was run; otherwise the entry is
    kept and the error reported.  Either way the status is [success]. *)
Theorem zombie_stop_signals_named_pid :
  forall w r pid info,
    0 <= pid ->
    Dict.get r (zombie_name pid) = Some info -> status info = zombie ->
    stop_server w r (Some (zombie_name pid))
    = match os_kill w pid with
      | None =>
          (Dict.del r (zombie_name pid),
           mk_response "success" ("Killed zombie " ++ zombie_name pid) None)
      | Some e =>
          if caught_by ProcessLookupError e then
            (Dict.del r (zombie_name pid),
             mk_response "success" ("Killed zombie " ++ zombie_name pid) None)
          else
            match shell_kill w pid with
            | None =>
                (Dict.del r (zombie_name pid),
                 mk_response "success"
                   ("Killed zombie " ++ zombie_name pid) None)
            | Some e' =>
                (r, mk_response "success"
                      ("Error killing zombie " ++ zombie_name pid ++ ": "
                       ++ exn_msg e') None)
            end
      end.
Proof.
  intros w r pid info Hpid Hget Hz.
  rewrite (stop_server_named w r _ info) by (discriminate || exact Hget).
  unfold stop_all. cbn [fold_left]. unfold stop_target.
  rewrite Hget, contains_zombie_name, Hz, kill_zombie_pid by exact Hpid.
  cbn [status_eqb andb]. unfold kill_pid.
  destruct (os_kill w pid) as [e|]; [|reflexivity].
  destruct (caught_by ProcessLookupError e); [reflexivity|].
  destruct (shell_kill w pid); reflexivity.
Qed.

Lemma zombie_stop_signals_named_pid_witness :
  stop_server denied_world lone_zombie (Some (zombie_name 4242))
  = ([], mk_response "success" "Killed zombie Zombie Process (4242)" None).
Proof.
  apply (zombie_stop_signals_named_pid denied_world lone_zombie 4242
           (mk_info (PsutilProcess 4242) PortNA zombie));
    [lia|reflexivity|reflexivity].
Defined.

(** ** Stopping everything *)

Lemma filter_andb {A : Type} (f g : A -> bool) (l : list A) :
  filter f (filter g l) = filter (fun x => g x && f x) l.
Proof.
  induction l as [|x l IH]; simpl; [reflexivity|].
  destruct (g x); simpl; [destruct (f x)|]; now rewrite IH.
Qed.







(** ** Stopping one ordinary entry *)






(** ** When a stop is refused *)

(** X9. A stop returns status [error] only for a non-empty name that is not
    registered; the registry is then left as it was and the message names
    the model.  An empty name counts as no name. *)
Theorem stop_error_iff_unknown_name :
  forall w r model_name,
    (r_status (snd (stop_server w r model_name)) = "error"
     <-> exists n, model_name = Some n /\ n <> "" /\ Dict.get r n = None)
    /\ (forall n, model_name = Some n -> n <> "" -> Dict.get r n = None ->
        stop_server w r model_name
        = (r, mk_response "error" ("Model " ++ n ++ " not found") None)).
Proof.
  intros w r m.
  assert (Hunknown : forall n, m = Some n -> n <> "" -> Dict.get r n = None ->
            stop_server w r m
            = (r, mk_response "error" ("Model " ++ n ++ " not found") None)).
  { intros n -> Hn Hget. unfold stop_server, Dict.mem.
    destruct n as [|c n]; [contradiction|]. cbn [truthy]. now rewrite Hget. }
  split; [|exact Hunknown]. split.
  - unfold stop_server. destruct (truthy m) as [n|] eqn:T.
    + destruct (Dict.mem r n) eqn:M.
      * destruct (stop_all_success w r [n]) as (results & -> & _).
        discriminate.
      * intros _. exists n. unfold Dict.mem in M.
        destruct (Dict.get r n); [discriminate|].
        destruct m as [[|c s']|]; simpl in T; try discriminate.
        injection T as <-. repeat split. discriminate.
    + destruct (stop_all_success w r (Dict.keys r)) as (results & -> & _).
      discriminate.
  - intros (n & -> & Hn & Hget). now rewrite (Hunknown n eq_refl Hn Hget).
Qed.

Lemma stop_error_iff_unknown_name_witness :
  stop_server quiet_world (run Dict.empty two_starts) (Some "distilgpt2")
  = (run Dict.empty two_starts,
     mk_response "error" "Model distilgpt2 not found" None).
Proof.
  apply (proj2 (stop_error_iff_unknown_name quiet_world
                  (run Dict.empty two_starts) (Some "distilgpt2"))
           "distilgpt2" eq_refl);
    [discriminate|reflexivity].
Defined.

(** ** The report and the registry after a status query *)

Lemma get_filter_absent (f : string * proc_info -> bool) (d : Dict.t)
    (n : string) :
  ~ In n (Dict.keys d) -> Dict.get (filter f d) n = None.
Proof.
  intros H. apply get_none_not_in. intros Hin. apply H.
  unfold Dict.keys in *. apply in_map_iff in Hin.
  destruct Hin as (kv & Hk & Hin). apply filter_In in Hin.
  apply in_map_iff. exists kv. tauto.
Qed.

Lemma status_loop_get (w : World) (items : list (string * proc_info)) :
  Dict.wf items ->
  forall items' active remove,
    status_loop w items = (items', Ok (active, remove)) ->
    forall n info,
      Dict.get items n = Some info ->
      exists dead,
        is_dead w (process info) = Ok dead
        /\ Dict.get (filter (unmarked remove) items') n
           = if dead && negb (status_eqb (status info) zombie)
             then None else Some (refresh w info).
Proof.
  unfold Dict.wf.
  induction items as [|[k i] items IH]; intros Hwf items' active remove;
    [intros _ n info; discriminate|].
  inversion Hwf as [|? ? Hnotin Hwf']; subst.
  cbn [status_loop].
  destruct (is_dead w (process i)) as [dead|e] eqn:D; [|discriminate].
  pose proof (status_loop_keys w items) as Hkeys.
  pose proof (status_loop_marked w items) as Hmarked.
  destruct (dead && negb (status_eqb (status i) zombie)) eqn:C;
    destruct (status_loop w items) as [rest' [[act rem]|e]];
    try discriminate; intros [= <- <- <-] n info;
    cbn [fst] in Hkeys; specialize (IH Hwf' rest' act rem eq_refl);
    specialize (Hmarked rest' act rem eq_refl);
    cbn [Dict.get]; destruct (String.eqb n k) eqn:E.
  - apply String.eqb_eq in E. subst n. intros [= <-]. exists dead.
    split; [exact D|]. rewrite C. cbn [filter]. rewrite unmarked_head.
    apply get_filter_absent. now rewrite Hkeys.
  - intros Hget. destruct (IH n info Hget) as (dead' & Hd & Hg).
    exists dead'. split; [exact Hd|]. cbn [filter]. rewrite unmarked_head.
    rewrite filter_unmarked_cons by now rewrite Hkeys. exact Hg.
  - apply String.eqb_eq in E. subst n. intros [= <-]. exists dead.
    split; [exact D|]. rewrite C. cbn [filter].
    rewrite unmarked_absent
      by (intros Hin; apply Hnotin; now apply Hmarked).
    cbn [Dict.get]. now rewrite String.eqb_refl.
  - intros Hget. destruct (IH n info Hget) as (dead' & Hd & Hg).
    exists dead'. split; [exact Hd|]. cbn [filter].
    rewrite unmarked_absent
      by (intros Hin; apply Hnotin; now apply Hmarked).
    cbn [Dict.get]. now rewrite E.
Qed.

Lemma status_loop_active (w : World) (items : list (string * proc_info)) :
  Dict.wf items ->
  forall items' active remove,
    status_loop w items = (items', Ok (active, remove)) ->
    active = map row_of (filter (unmarked remove) items').
Proof.
  unfold Dict.wf.
  induction items as [|[k i] items IH]; intros Hwf items' active remove.
  - now intros [= <- <- <-].
  - inversion Hwf as [|? ? Hnotin Hwf']; subst.
    cbn [status_loop].
    destruct (is_dead w (process i)) as [dead|e]; [|discriminate].
    pose proof (status_loop_keys w items) as Hkeys.
    pose proof (status_loop_marked w items) as Hmarked.
    destruct (dead && negb (status_eqb (status i) zombie));
      destruct (status_loop w items) as [rest' [[act rem]|e]];
      try discriminate; intros [= <- <- <-];
      cbn [fst] in Hkeys; specialize (IH Hwf' rest' act rem eq_refl);
      specialize (Hmarked rest' act rem eq_refl); cbn [filter].
    + rewrite unmarked_head.
      rewrite filter_unmarked_cons by now rewrite Hkeys. exact IH.
    + rewrite unmarked_absent
        by (intros Hin; apply Hnotin; now apply Hmarked).
      cbn [map]. now rewrite <- IH.
Qed.

Lemma get_status_entry (w : World) (r r1 : registry) (rep : status_report)
    (n : string) (info : proc_info) :
  Dict.wf r -> get_status w r = (r1, Return rep) ->
  Dict.get r n = Some info ->
  exists dead,
    is_dead w (process info) = Ok dead
    /\ Dict.get r1 n
       = if dead && negb (status_eqb (status info) zombie)
         then None else Some (refresh w info).
Proof.
  intros Hwf. unfold get_status.
  destruct (status_loop w r) as [r' [[active remove]|e]] eqn:E;
    [|discriminate].
  intros [= <- <-] Hget. rewrite dels_filter.
  now apply (status_loop_get w r Hwf r' active remove E).
Qed.

Lemma get_status_models (w : World) (r r1 : registry) (rep : status_report) :
  Dict.wf r -> get_status w r = (r1, Return rep) ->
  rep_models rep = map row_of r1.
Proof.
  intros Hwf. unfold get_status.
  destruct (status_loop w r) as [r' [[active remove]|e]] eqn:E;
    [|discriminate].
  intros [= <- <-]. rewrite dels_filter.
  apply (status_loop_active w r Hwf r' active remove E).
Qed.

(** X10. What a status query returns is what it leaves behind: the models
    list is the registry after the call, entry by entry and in its order,
    the running flag says whether that registry is non-empty, and no name is
    in it that was not registered before. *)
Theorem status_report_lists_registry :
  forall w (r r1 : registry) rep,
    Dict.wf r -> get_status w r = (r1, Return rep) ->
    rep_models rep = map row_of r1
    /\ (rep_running rep = true <-> r1 <> [])
    /\ incl (Dict.keys r1) (Dict.keys r).
Proof.
  intros w r r1 rep Hwf Hst.
  pose proof (status_running_flag w r r1 rep Hst) as Hflag.
  unfold get_status in Hst.
  destruct (status_loop w r) as [r' [[active remove]|e]] eqn:E;
    [|discriminate].
  injection Hst as <- <-. rewrite dels_filter in *.
  pose proof (status_loop_active w r Hwf r' active remove E) as Hact.
  cbn [rep_models] in *. split; [exact Hact|]. split.
  - rewrite Hflag, Hact.
    destruct (filter (unmarked remove) r'); simpl; split; congruence.
  - intros k Hin. rewrite <- (status_loop_keys w r), E. cbn [fst].
    unfold Dict.keys in *. apply in_map_iff in Hin.
    destruct Hin as (kv & Hk & Hin). apply filter_In in Hin.
    apply in_map_iff. exists kv. tauto.
Qed.

Lemma status_report_lists_registry_witness :
  rep_models (mk_report true
                [mk_row "facebook/opt-125m" (PortInt 8001) running;
                 mk_row "gpt2" (PortInt 8001) running])
  = map row_of (fst (get_status busy_world (run Dict.empty two_starts))).
Proof.
  apply (status_report_lists_registry busy_world (run Dict.empty two_starts)
           (fst (get_status busy_world (run Dict.empty two_starts)))
           (mk_report true
              [mk_row "facebook/opt-125m" (PortInt 8001) running;
               mk_row "gpt2" (PortInt 8001) running])
           (wf_run two_starts Dict.empty (NoDup_nil _)) eq_refl).
Defined.

(** X11. For an entry the manager spawned itself, a status query that
    returns removes it exactly when its child has exited; while the child
    runs the entry stays, with its handle and port. *)
Theorem status_self_spawned_entry :
  forall w (r r1 : registry) rep n info child,
    Dict.wf r -> get_status w r = (r1, Return rep) ->
    Dict.get r n = Some info ->
    process info = AsyncioProcess child -> status info <> zombie ->
    (Dict.get r1 n = None <-> returncode w child <> None)
    /\ (returncode w child = None ->
        exists info', Dict.get r1 n = Some info'
                      /\ process info' = process info
                      /\ port info' = port info).
Proof.
  intros w r r1 rep n info child Hwf Hst Hget Hproc Hnz.
  destruct (get_status_entry w r r1 rep n info Hwf Hst Hget)
    as (dead & Hd & Hg).
  assert (Hz : status_eqb (status info) zombie = false).
  { apply not_true_is_false. intros H. now apply status_eqb_eq in H. }
  rewrite Hz in Hg. rewrite Hproc in Hd. simpl in Hd.
  destruct (returncode w child) as [code|]; injection Hd as <-;
    simpl in Hg; rewrite Hg.
  - split; [split; [intros _; discriminate|intros _; reflexivity]
           |intros H; discriminate H].
  - split; [split; [intros H; discriminate H|intros H; now contradiction H]|].
    intros _. exists (refresh w info). split; [reflexivity|].
    split; [apply refresh_process|].
    destruct info as [proc [p|] []]; unfold refresh; simpl; try reflexivity.
    now destruct (_is_port_in_use w p).
Qed.

Lemma status_self_spawned_entry_witness :
  Dict.get (fst (get_status exited_world (run Dict.empty two_starts))) "gpt2"
  = None.
Proof.
  apply (proj1 (status_self_spawned_entry exited_world
                  (run Dict.empty two_starts)
                  (fst (get_status exited_world (run Dict.empty two_starts)))
                  (mk_report false []) "gpt2"
                  (mk_info (AsyncioProcess 1004) (PortInt 8001) starting) 1004
                  (wf_run two_starts Dict.empty (NoDup_nil _))
                  eq_refl eq_refl eq_refl ltac:(discriminate))).
  discriminate.
Defined.

(** X12. A status query that returns never removes or changes an entry
    whose status is [zombie], whatever the system says about its process. *)
Theorem status_keeps_zombie_entries :
  forall w (r r1 : registry) rep n info,
    Dict.wf r -> get_status w r = (r1, Return rep) ->
    Dict.get r n = Some info -> status info = zombie ->
    Dict.get r1 n = Some info
    /\ In (mk_row n (port info) zombie) (rep_models rep).
Proof.
  intros w r r1 rep n info Hwf Hst Hget Hz.
  destruct (get_status_entry w r r1 rep n info Hwf Hst Hget)
    as (dead & _ & Hg).
  rewrite Hz in Hg. simpl in Hg. rewrite andb_false_r in Hg.
  assert (Hr : refresh w info = info) by (unfold refresh; now rewrite Hz).
  rewrite Hr in Hg. split; [exact Hg|].
  rewrite (get_status_models w r r1 rep Hwf Hst).
  apply get_some_in in Hg. apply in_map_iff. exists (n, info).
  split; [|exact Hg]. unfold row_of. simpl. now rewrite Hz.
Qed.

Lemma status_keeps_zombie_entries_witness :
  Dict.get (fst (get_status vanished_world lone_zombie)) "Zombie Process (4242)"
  = Some (mk_info (PsutilProcess 4242) PortNA zombie).
Proof.
  apply (status_keeps_zombie_entries vanished_world lone_zombie
           (fst (get_status vanished_world lone_zombie))
           (mk_report true [mk_row "Zombie Process (4242)" PortNA zombie])
           "Zombie Process (4242)"
           (mk_info (PsutilProcess 4242) PortNA zombie)
           (wf_discover [engine_orphan 4242]) eq_refl eq_refl eq_refl).
Defined.

(** X13. An entry that survives a status query keeps its handle and its
    port, and its status only moves forward: [running] and [zombie] stay,
    and [starting] becomes [running] exactly when the entry's port is an
    integer that answers the connect probe. *)
Theorem status_transitions_forward :
  forall w (r r1 : registry) rep n info info',
    Dict.wf r -> get_status w r = (r1, Return rep) ->
    Dict.get r n = Some info -> Dict.get r1 n = Some info' ->
    process info' = process info
    /\ port info' = port info
    /\ (status info <> starting -> status info' = status info)
    /\ (status info = starting ->
        (status info' = running
         <-> exists p, port info = PortInt p /\ _is_port_in_use w p = true)
        /\ (status info' = starting
            <-> ~ exists p, port info = PortInt p
                            /\ _is_port_in_use w p = true)).
Proof.
  intros w r r1 rep n info info' Hwf Hst Hget Hget'.
  destruct (get_status_entry w r r1 rep n info Hwf Hst Hget)
    as (dead & _ & Hg).
  rewrite Hget' in Hg.
  destruct (dead && negb (status_eqb (status info) zombie));
    [discriminate|]. injection Hg as ->.
  destruct info as [proc po st]. unfold refresh. cbn [status port process].
  destruct st.
  - destruct po as [p|]; [destruct (_is_port_in_use w p) eqn:U|];
      cbn [status port process set_status];
      (split; [reflexivity|]); (split; [reflexivity|]);
      (split; [intros H; now contradiction H|]); intros _.
    + split; [split; [intros _; now exists p|reflexivity]|].
      split; [discriminate|]. intros H. exfalso. apply H. now exists p.
    + split; [split; [discriminate|]|].
      * intros (q & [= <-] & Hq). congruence.
      * split; [|reflexivity]. intros _ (q & [= <-] & Hq). congruence.
    + split; [split; [discriminate|]|].
      * intros (q & Hq & _). discriminate Hq.
      * split; [|reflexivity]. intros _ (q & Hq & _). discriminate Hq.
  - split; [reflexivity|]. split; [reflexivity|].
    split; [intros _; reflexivity|intros H; discriminate H].
  - split; [reflexivity|]. split; [reflexivity|].
    split; [intros _; reflexivity|intros H; discriminate H].
Qed.

Lemma status_transitions_forward_witness :
  status (mk_info (AsyncioProcess 1004) (PortInt 8001) running) = running
  <-> exists p, PortInt 8001 = PortInt p /\ _is_port_in_use busy_world p = true.
Proof.
  apply (status_transitions_forward busy_world (run Dict.empty two_starts)
           (fst (get_status busy_world (run Dict.empty two_starts)))
           (mk_report true
              [mk_row "facebook/opt-125m" (PortInt 8001) running;
               mk_row "gpt2" (PortInt 8001) running])
           "gpt2"
           (mk_info (AsyncioProcess 1004) (PortInt 8001) starting)
           (mk_info (AsyncioProcess 1004) (PortInt 8001) running)
           (wf_run two_starts Dict.empty (NoDup_nil _))
           eq_refl eq_refl eq_refl).
  reflexivity.
Defined.

(** ** When a status query raises *)

Lemma status_loop_returns (w : World) (items : list (string * proc_info)) :
  (forall n info p e,
     In (n, info) items -> process info = PsutilProcess p ->
     is_running w p = true -> ps_status w p = Fail e ->
     caught_by NoSuchProcess e = true) ->
  exists items' active remove,
    status_loop w items = (items', Ok (active, remove)).
Proof.
  induction items as [|[k i] items IH]; intros H; cbn [status_loop].
  - now eexists _, _, _.
  - destruct IH as (rest' & act & rem & ->).
    { intros n info p e Hin. apply (H n info p e). now right. }
    assert (Hd : exists dead, is_dead w (process i) = Ok dead).
    { unfold is_dead. destruct (process i) as [p|p] eqn:P.
      - destruct (returncode w p); now eexists.
      - destruct (is_running w p) eqn:R; simpl; [|now eexists].
        destruct (ps_status w p) as [z|e] eqn:S; [now eexists|].
        rewrite (H k i p e (or_introl eq_refl) P R S). now eexists. }
    destruct Hd as (dead & ->).
    destruct (dead && negb (status_eqb (status i) zombie));
      now eexists _, _, _.
Qed.

(** X14. A status query raises only when [status()] of a discovered process
    that is still running fails with something other than [NoSuchProcess];
    if that never happens - in particular when every entry is the
    manager's own child - the query returns.  When it does raise, nothing
    has been purged: the registry holds the same names as before. *)
Theorem status_raises_only_on_status_failure :
  forall w (r : registry),
    ((forall n info p e,
        In (n, info) r -> process info = PsutilProcess p ->
        is_running w p = true -> ps_status w p = Fail e ->
        caught_by NoSuchProcess e = true) ->
     exists r1 rep, get_status w r = (r1, Return rep))
    /\ (forall r1 e, get_status w r = (r1, Raise e) ->
        Dict.keys r1 = Dict.keys r
        /\ caught_by NoSuchProcess e = false
        /\ exists n info p,
             In (n, info) r /\ process info = PsutilProcess p
             /\ is_running w p = true /\ ps_status w p = Fail e).
Proof.
  intros w r. split.
  - intros H. destruct (status_loop_returns w r H) as (r' & act & rem & E).
    unfold get_status. rewrite E. now eexists _, _.
  - intros r1 e. unfold get_status.
    pose proof (status_loop_keys w r) as Hkeys.
    destruct (status_loop w r) as [r' [[act rem]|e']] eqn:E;
      [discriminate|]. intros [= <- <-]. split; [exact Hkeys|].
    clear Hkeys. revert r' E.
    induction r as [|[k i] r IH]; intros r'; cbn [status_loop];
      [discriminate|].
    destruct (is_dead w (process i)) as [dead|e0] eqn:D.
    + destruct (dead && negb (status_eqb (status i) zombie));
        destruct (status_loop w r) as [rest' [[act rem]|e0]];
        try discriminate; intros [= <- <-];
        destruct (IH rest' eq_refl) as (Hc & n & info & p & Hin & Hrest);
        (split; [exact Hc|]); exists n, info, p; (split; [now right|]);
        exact Hrest.
    + intros [= <- <-]. unfold is_dead in D.
      destruct (process i) as [p|p] eqn:P.
      * destruct (returncode w p); discriminate.
      * destruct (is_running w p) eqn:R; simpl in D; [|discriminate].
        destruct (ps_status w p) as [z|e1] eqn:S; [discriminate|].
        destruct (caught_by NoSuchProcess e1) eqn:C; [discriminate|].
        injection D as <-. split; [exact C|].
        exists k, i, p. repeat split; (now left) || assumption.
Qed.

Lemma status_raises_only_on_status_failure_witness :
  exists r1 rep,
    get_status vanished_world (_discover_running_processes mixed_host)
    = (r1, Return rep).
Proof.
  apply (proj1 (status_raises_only_on_status_failure vanished_world
                  (_discover_running_processes mixed_host))).
  intros n info p e _ _ R. discriminate R.
Defined.

(** ** Routing a chat request *)

Lemma prefix_refl (s : string) : String.prefix s s = true.
Proof.
  induction s as [|c s IH]; [reflexivity|]. simpl.
  now destruct (ascii_dec c c).
Qed.

Lemma contains_refl (s : string) : Py.contains s s = true.
Proof. destruct s as [|c s]; [reflexivity|]. now rewrite contains_cons, prefix_refl. Qed.

Lemma fuzzy_port_none (items : list (string * proc_info)) (m : string) :
  fuzzy_port items m = None
  <-> forall k, In k (Dict.keys items) -> Py.contains m k = false.
Proof.
  induction items as [|[k i] items IH]; simpl.
  - split; [intros _ k []|reflexivity].
  - destruct (Py.contains m k) eqn:C.
    + split; [discriminate|]. intros H. specialize (H k (or_introl eq_refl)).
      congruence.
    + rewrite IH. split.
      * intros H k' [<-|Hin]; [exact C|now apply H].
      * intros H k' Hin. apply H. now right.
Qed.

Lemma fuzzy_port_some (items : list (string * proc_info)) (m : string)
    (p : port_value) :
  fuzzy_port items m = Some p ->
  exists k info, In (k, info) items /\ Py.contains m k = true
                 /\ port info = p.
Proof.
  induction items as [|[k i] items IH]; simpl; [discriminate|].
  destruct (Py.contains m k) eqn:C.
  - intros [= <-]. exists k, i. repeat split; [now left|exact C].
  - intros H. destruct (IH H) as (k' & i' & Hin & Hc & Hp).
    exists k', i'. repeat split; [now right|exact Hc|exact Hp].
Qed.

(** X15. A chat request naming a model is answered with [not currently
    running] exactly when no registered name contains the requested name -
    provided no entry has port 0, which counts as no port.  A registered
    name is routed to its own entry's port even when an earlier entry's
    name contains it; otherwise the first entry, in registration order,
    whose name contains the request is chosen. *)
Theorem chat_routing :
  forall post (r : registry) m,
    m <> "" ->
    (forall k info, In (k, info) r -> port info <> PortInt 0) ->
    (chat_completion post r (Some m)
     = ChatError ("Model " ++ m ++ " is not currently running")
     <-> forall k, In k (Dict.keys r) -> Py.contains m k = false)
    /\ (forall info,
          Dict.get r m = Some info ->
          chat_completion post r (Some m)
          = match post (chat_url (port info)) m with
            | Ok body => ChatBody body
            | Fail e =>
                ChatError ("Failed to communicate with vLLM on port "
                           ++ str_of_port (port info) ++ ": " ++ exn_msg e)
            end)
    /\ (forall pre k info post',
          r = (pre ++ (k, info) :: post')%list ->
          Dict.get r m = None ->
          (forall k', In k' (Dict.keys pre) -> Py.contains m k' = false) ->
          Py.contains m k = true ->
          chat_completion post r (Some m)
          = match post (chat_url (port info)) m with
            | Ok body => ChatBody body
            | Fail e =>
                ChatError ("Failed to communicate with vLLM on port "
                           ++ str_of_port (port info) ++ ": " ++ exn_msg e)
            end).
Proof.
  intros post r m Hm Hports.
  assert (Htruthy : forall k info, In (k, info) r ->
                      port_truthy (port info) = true).
  { intros k info Hin. specialize (Hports k info Hin).
    destruct (port info) as [q|]; [|reflexivity]. simpl.
    apply negb_true_iff, Z.eqb_neq. congruence. }
  assert (Hsome : truthy (Some m) = Some m) by (now destruct m).
  assert (Hexact : forall info,
            Dict.get r m = Some info ->
            chat_completion post r (Some m)
            = match post (chat_url (port info)) m with
              | Ok body => ChatBody body
              | Fail e =>
                  ChatError ("Failed to communicate with vLLM on port "
                             ++ str_of_port (port info) ++ ": " ++ exn_msg e)
              end).
  { intros info Hget. unfold chat_completion, target_port_of.
    rewrite Hsome, Hget.
    now rewrite (Htruthy m info (get_some_in r m info Hget)). }
  split; [|split; [exact Hexact|]].
  - split.
    + intros Herr k Hin.
      destruct (Py.contains m k) eqn:C; [exfalso|reflexivity].
      unfold chat_completion, target_port_of in Herr. rewrite Hsome in Herr.
      destruct (Dict.get r m) as [info|] eqn:G.
      * rewrite (Htruthy m info (get_some_in r m info G)) in Herr.
        destruct (post (chat_url (port info)) m); discriminate Herr.
      * destruct (fuzzy_port r m) as [p|] eqn:F.
        -- destruct (fuzzy_port_some r m p F) as (k' & i' & Hin' & _ & <-).
           rewrite (Htruthy k' i' Hin') in Herr.
           destruct (post (chat_url (port i')) m); discriminate Herr.
        -- rewrite (proj1 (fuzzy_port_none r m) F k Hin) in C. discriminate.
    + intros Hnone. unfold chat_completion, target_port_of. rewrite Hsome.
      destruct (Dict.get r m) as [info|] eqn:G.
      * exfalso. apply get_some_in in G.
        assert (Hin : In m (Dict.keys r))
          by (change m with (fst (m, info)); now apply in_map).
        specialize (Hnone m Hin). rewrite contains_refl in Hnone.
        discriminate.
      * now rewrite (proj2 (fuzzy_port_none r m) Hnone).
  - intros pre k info post' -> Hget Hpre Hk.
    unfold chat_completion, target_port_of. rewrite Hsome, Hget.
    assert (Hf : fuzzy_port (pre ++ (k, info) :: post') m = Some (port info)).
    { clear - Hpre Hk. induction pre as [|[k0 i0] pre IH]; simpl.
      - now rewrite Hk.
      - rewrite (Hpre k0 (or_introl eq_refl)). apply IH.
        intros k' Hin. apply Hpre. now right. }
    rewrite Hf. rewrite (Htruthy k info); [reflexivity|].
    apply in_or_app. right. now left.
Qed.

Lemma chat_routing_witness :
  chat_completion echo_post (_discover_running_processes four_servers)
    (Some "llama")
  = ChatError "Model llama is not currently running"
  /\ chat_completion echo_post (_discover_running_processes four_servers)
       (Some "gpt2")
     = ChatBody
         "{model: gpt2, via: http://localhost:8005/v1/chat/completions}"
  /\ chat_completion echo_post (_discover_running_processes four_servers)
       (Some "pythia")
     = ChatBody
         "{model: pythia, via: http://localhost:8007/v1/chat/completions}".
Proof.
  assert (Hr : _discover_running_processes four_servers
               = [("gpt2", mk_info (PsutilProcess 4242) (PortInt 8005) running);
                  ("facebook/opt-125m",
                   mk_info (PsutilProcess 4243) (PortInt 8006) running);
                  ("EleutherAI/pythia-70m",
                   mk_info (PsutilProcess 4244) (PortInt 8007) running);
                  ("distilgpt2",
                   mk_info (PsutilProcess 4245) (PortInt 8008) running)])
    by reflexivity.
  rewrite Hr.
  match goal with |- context [chat_completion _ ?l _] => set (r := l) end.
  assert (Hports : forall k info, In (k, info) r -> port info <> PortInt 0).
  { intros k info Hin. unfold r in Hin. cbn [In] in Hin.
    destruct Hin as [H|[H|[H|[H|[]]]]]; injection H as <- <-; discriminate. }
  split; [|split].
  - apply (proj1 (chat_routing echo_post r "llama"
                    ltac:(discriminate) Hports)).
    intros k Hin. unfold r in Hin. cbn [Dict.keys map fst In] in Hin.
    destruct Hin as [<-|[<-|[<-|[<-|[]]]]]; reflexivity.
  - apply (proj1 (proj2 (chat_routing echo_post r "gpt2"
                           ltac:(discriminate) Hports))
             (mk_info (PsutilProcess 4242) (PortInt 8005) running)).
    reflexivity.
  - apply (proj2 (proj2 (chat_routing echo_post r "pythia"
                           ltac:(discriminate) Hports))
             [("gpt2", mk_info (PsutilProcess 4242) (PortInt 8005) running);
              ("facebook/opt-125m",
               mk_info (PsutilProcess 4243) (PortInt 8006) running)]
             "EleutherAI/pythia-70m"
             (mk_info (PsutilProcess 4244) (PortInt 8007) running)
             [("distilgpt2",
               mk_info (PsutilProcess 4245) (PortInt 8008) running)]);
      [reflexivity|reflexivity| |reflexivity].
    intros k Hin. cbn [Dict.keys map fst In] in Hin.
    destruct Hin as [<-|[<-|[]]]; reflexivity.
Defined.

(** X16. Routing looks at names and ports only: two registries that agree
    on them give the same answer, whatever the handles and statuses are.
    So an entry that is still [starting], or a zombie with port [N/A], is
    routed to like a running one. *)
Theorem chat_routing_ignores_status :
  forall post (r r' : registry) model_name,
    routes r = routes r' ->
    chat_completion post r model_name = chat_completion post r' model_name.
Proof.
  intros post r r' m Hroutes.
  assert (Ht : forall n, target_port_of r n = target_port_of r' n).
  { intros n. unfold target_port_of.
    assert (Hget : forall d d' : registry, routes d = routes d' ->
              option_map port (Dict.get d n) = option_map port (Dict.get d' n)
              /\ fuzzy_port d n = fuzzy_port d' n).
    { induction d as [|[k i] d IH]; intros [|[k' i'] d'] H;
        try discriminate; [now split|].
      injection H as -> Hp Hrest. simpl.
      destruct (IH d' Hrest) as [IH1 IH2].
      split.
      - destruct (String.eqb n k'); [simpl; now rewrite Hp|exact IH1].
      - destruct (Py.contains n k'); [now rewrite Hp|exact IH2]. }
    destruct (Hget r r' Hroutes) as [H1 H2].
    destruct (Dict.get r n), (Dict.get r' n); simpl in H1;
      try discriminate; [now injection H1 as ->|exact H2]. }
  unfold chat_completion. destruct (truthy m) as [n|]; [|reflexivity].
  now rewrite Ht.
Qed.

Lemma chat_routing_ignores_status_witness :
  chat_completion echo_post lone_zombie (Some "Zombie")
  = ChatBody "{model: Zombie, via: http://localhost:N/A/v1/chat/completions}".
Proof.
  rewrite (chat_routing_ignores_status echo_post lone_zombie
             [("Zombie Process (4242)",
               mk_info (AsyncioProcess 1) PortNA running)]
             (Some "Zombie") eq_refl).
  reflexivity.
Defined.

(** ** The set of live connections *)

Lemma remove_fresh_prefix (good : list nat) (c : nat) (rest : list nat) :
  ~ In c good ->
  ConnectionManager.remove c (good ++ c :: rest)%list = (good ++ rest)%list.
Proof.
  induction good as [|g good IH]; intros Hnot; simpl.
  - now rewrite Nat.eqb_refl.
  - destruct (Nat.eqb g c) eqn:E.
    + apply Nat.eqb_eq in E. subst. exfalso. apply Hnot. now left.
    + rewrite IH; [reflexivity|]. intros Hin. apply Hnot. now right.
Qed.

Lemma disconnect_present (conns : list nat) (c : nat) :
  In c conns ->
  ConnectionManager.disconnect conns c = ConnectionManager.remove c conns.
Proof.
  intros Hin. unfold ConnectionManager.disconnect.
  replace (existsb (Nat.eqb c) conns) with true; [reflexivity|].
  symmetry. apply existsb_exists. exists c. split; [exact Hin|].
  apply Nat.eqb_refl.
Qed.

Lemma broadcast_from (send_json : nat -> option exn) (conns : list nat) :
  forall good,
    (forall g, In g good -> send_json g = None) ->
    fold_left ConnectionManager.disconnect
      (ConnectionManager.dead_connections send_json conns) (good ++ conns)%list
    = (good ++ filter (fun c => match send_json c with
                                | Some _ => false
                                | None => true
                                end) conns)%list.
Proof.
  unfold ConnectionManager.dead_connections.
  induction conns as [|c conns IH]; intros good Hgood; simpl.
  - reflexivity.
  - destruct (send_json c) as [e|] eqn:S; simpl.
    + rewrite disconnect_present by (apply in_or_app; right; now left).
      rewrite remove_fresh_prefix.
      * now apply IH.
      * intros Hin. rewrite (Hgood c Hin) in S. discriminate.
    + change (good ++ c :: conns)%list with (good ++ [c] ++ conns)%list.
      rewrite app_assoc, IH.
      * now rewrite <- app_assoc.
      * intros g Hin. apply in_app_or in Hin.
        destruct Hin as [Hin|[<-|[]]]; [now apply Hgood|exact S].
Qed.

(** X17. After a broadcast the live connections are exactly those on which
    the send did not raise, in their order; the others are all dropped, and
    broadcasting once more to the same peers drops nothing further. *)
Theorem broadcast_keeps_live_connections :
  forall send_json conns,
    ConnectionManager.broadcast send_json conns
    = filter (fun c => match send_json c with
                       | Some _ => false
                       | None => true
                       end) conns
    /\ (forall c, In c (ConnectionManager.broadcast send_json conns)
                  <-> In c conns /\ send_json c = None)
    /\ ConnectionManager.broadcast send_json
         (ConnectionManager.broadcast send_json conns)
       = ConnectionManager.broadcast send_json conns.
Proof.
  intros send_json conns.
  assert (H : forall l, ConnectionManager.broadcast send_json l
                        = filter (fun c => match send_json c with
                                           | Some _ => false
                                           | None => true
                                           end) l).
  { intros l. unfold ConnectionManager.broadcast.
    apply (broadcast_from send_json l []). intros g []. }
  split; [apply H|]. split.
  - intros c. rewrite H, filter_In.
    destruct (send_json c); split; intros [Hin Hs];
      (split; [exact Hin|]); congruence.
  - rewrite !H. rewrite filter_andb. apply filter_ext. intros c.
    now destruct (send_json c).
Qed.

(** X18. Disconnecting a socket that is not connected changes nothing;
    disconnecting a connected one removes one occurrence and keeps every
    other connection in place.  So a connect followed by a disconnect of
    the same socket gives back the connections there were. *)
Theorem connect_disconnect :
  forall accept conns ws,
    (~ In ws conns -> ConnectionManager.disconnect conns ws = conns)
    /\ (In ws conns ->
        Permutation (ws :: ConnectionManager.disconnect conns ws) conns)
    /\ (accept ws = None -> ~ In ws conns ->
        ConnectionManager.disconnect
          (fst (ConnectionManager.connect accept conns ws)) ws = conns)
    /\ (forall e, accept ws = Some e ->
        ConnectionManager.connect accept conns ws = (conns, Raise e)).
Proof.
  intros accept conns ws. split; [|split; [|split]].
  - intros Hnot. unfold ConnectionManager.disconnect.
    destruct (existsb (Nat.eqb ws) conns) eqn:E; [|reflexivity].
    apply existsb_exists in E. destruct E as (x & Hin & Heq).
    apply Nat.eqb_eq in Heq. subst x. contradiction.
  - intros Hin. rewrite disconnect_present by exact Hin.
    induction conns as [|c conns IH]; [destruct Hin|]. simpl.
    destruct (Nat.eqb c ws) eqn:E.
    + apply Nat.eqb_eq in E. now subst.
    + destruct Hin as [->|Hin]; [now rewrite Nat.eqb_refl in E|].
      rewrite perm_swap. now constructor; apply IH.
  - intros Hacc Hnot. unfold ConnectionManager.connect. rewrite Hacc.
    cbn [fst].
    rewrite disconnect_present by (apply in_or_app; right; now left).
    rewrite remove_fresh_prefix by exact Hnot. apply app_nil_r.
  - intros e Hacc. unfold ConnectionManager.connect. now rewrite Hacc.
Qed.

Lemma connect_disconnect_witness :
  ConnectionManager.disconnect [1; 2; 3]%nat 7%nat = [1; 2; 3]%nat
  /\ Permutation
       (2 :: ConnectionManager.disconnect [1; 2; 3; 2] 2)%nat
       [1; 2; 3; 2]%nat
  /\ ConnectionManager.disconnect
       (fst (ConnectionManager.connect (fun _ => None) [1; 2; 3] 7))%nat 7%nat
     = [1; 2; 3]%nat.
Proof.
  destruct (connect_disconnect (fun _ => None) [1; 2; 3]%nat 7%nat)
    as (Habsent & _ & Hround & _).
  destruct (connect_disconnect (fun _ => None) [1; 2; 3; 2]%nat 2%nat)
    as (_ & Hperm & _).
  split; [|split].
  - apply Habsent. intros [H|[H|[H|[]]]]; discriminate H.
  - apply Hperm. right. now left.
  - apply Hround; [reflexivity|].
    intros [H|[H|[H|[]]]]; discriminate H.
Defined.

(** ** Names of cached models *)

Lemma prefix_empty (s : string) : String.prefix "" s = true.
Proof. now destruct s. Qed.

Lemma replace_from_skip (old new : string) (x : string) :
  forall rest,
    replace_from old new (String.length x) (x ++ rest)
    = replace_from old new 0 rest.
Proof.
  induction x as [|c x IH]; intros rest; simpl.
  - now destruct rest.
  - apply IH.
Qed.

Lemma str_replace_match (old new rest : string) :
  old <> "" ->
  str_replace old new (old ++ rest) = new ++ str_replace old new rest.
Proof.
  intros Hold. destruct old as [|c old]; [contradiction|].
  unfold str_replace.
  change (String c old ++ rest) with (String c (old ++ rest)).
  cbn [replace_from].
  change (String c (old ++ rest)) with (String c old ++ rest).
  rewrite (prefix_app_l _ _ rest (prefix_refl (String c old))).
  cbn [String.length]. rewrite Nat.sub_1_r. cbn [Nat.pred].
  now rewrite replace_from_skip.
Qed.

Lemma str_replace_step (old new : string) (c : ascii) (rest : string) :
  String.prefix old (String c rest) = false ->
  str_replace old new (String c rest) = String c (str_replace old new rest).
Proof. intros H. unfold str_replace. cbn [replace_from]. now rewrite H. Qed.

Lemma contains_cons_false (n : string) (c : ascii) (s : string) :
  Py.contains n (String c s) = false ->
  String.prefix n (String c s) = false /\ Py.contains n s = false.
Proof.
  rewrite contains_cons. destruct (String.prefix n (String c s));
    [discriminate|]. now split.
Qed.

Lemma str_replace_absent (old new s : string) :
  Py.contains old s = false -> str_replace old new s = s.
Proof.
  induction s as [|c s IH]; [reflexivity|].
  intros H. apply contains_cons_false in H. destruct H as [Hp Hc].
  rewrite (str_replace_step old new c s Hp). now rewrite IH.
Qed.

Lemma dashes_replace_left (a b : string) :
  Py.contains "--" (a ++ "-") = false ->
  str_replace "--" "/" (a ++ "--" ++ b) = a ++ "/" ++ str_replace "--" "/" b.
Proof.
  induction a as [|c a IH].
  - intros _. apply (str_replace_match "--" "/" b). discriminate.
  - change (String c a ++ "-") with (String c (a ++ "-")).
    intros H. apply contains_cons_false in H. destruct H as [Hp Hc].
    change (String c a ++ "--" ++ b) with (String c (a ++ "--" ++ b)).
    rewrite str_replace_step.
    + rewrite (IH Hc). reflexivity.
    + clear IH Hc. cbn [String.prefix] in *.
      destruct (ascii_dec "-" c); [|reflexivity].
      destruct a as [|d a].
      * simpl in Hp. discriminate Hp.
      * change (String d a ++ "-") with (String d (a ++ "-")) in Hp.
        change (String d a ++ "--" ++ b) with (String d (a ++ "--" ++ b)).
        cbn [String.prefix] in *.
        destruct (ascii_dec "-" d); [|reflexivity].
        rewrite prefix_empty in Hp. discriminate Hp.
Qed.

(** X19. The directory name [models--<org>--<repo>] of the model cache is
    turned back into [<org>/<repo>], provided neither part contains a
    double dash, the first does not end and the second does not start with
    a dash, and [models--] does not occur a second time - every occurrence
    of it is deleted, not only the leading one. *)
Theorem cache_name_round_trip :
  forall org repo,
    Py.contains "--" (org ++ "-") = false ->
    Py.contains "--" ("-" ++ repo) = false ->
    Py.contains "models--" (org ++ "--" ++ repo) = false ->
    cache_model_name ("models--" ++ org ++ "--" ++ repo) = org ++ "/" ++ repo.
Proof.
  intros org repo Horg Hrepo Hagain. unfold cache_model_name.
  rewrite (str_replace_match "models--" "" (org ++ "--" ++ repo))
    by discriminate.
  rewrite (str_replace_absent "models--" "" _ Hagain).
  change ("" ++ (org ++ "--" ++ repo)) with (org ++ "--" ++ repo).
  rewrite (dashes_replace_left org repo Horg).
  change ("-" ++ repo) with (String "-" repo) in Hrepo.
  apply contains_cons_false in Hrepo. destruct Hrepo as [_ Hrepo].
  now rewrite (str_replace_absent "--" "/" repo Hrepo).
Qed.

Lemma cache_name_round_trip_witness :
  cache_model_name ("models--" ++ "facebook" ++ "--" ++ "opt-125m")
  = "facebook" ++ "/" ++ "opt-125m"
  /\ cache_model_name "models--base-models--tiny" = "base-tiny"
  /\ get_available_models
       (Some [("models--facebook--opt-125m", true);
              ("models--gpt2", true);
              ("models--stale.lock", false);
              ("datasets--squad", true)])
     = ["facebook/opt-125m"; "gpt2"].
Proof.
  split; [|split; reflexivity].
  apply (cache_name_round_trip "facebook" "opt-125m"); reflexivity.
Defined.

(** ** One model from start to stop *)

(** X20. On an empty registry a start whose spawn succeeds registers the
    model as [starting] on the allocated port; a status query made while
    the child runs and the port answers reports it as [running]; a stop of
    that name then empties the registry, whatever the termination steps
    did, and the next status query reports nothing running. *)
Theorem start_status_stop_cycle :
  forall w1 w2 w3 w4 m p child,
    m <> "" ->
    _get_next_free_port w1 = Some p ->
    create_subprocess_exec w1 (launch_cmd m p) = Ok child ->
    returncode w2 child = None ->
    _is_port_in_use w2 p = true ->
    start_server w1 Dict.empty m
    = ([(m, mk_info (AsyncioProcess child) (PortInt p) starting)],
       Return (started_response m p))
    /\ get_status w2 [(m, mk_info (AsyncioProcess child) (PortInt p) starting)]
       = ([(m, mk_info (AsyncioProcess child) (PortInt p) running)],
          Return (mk_report true [mk_row m (PortInt p) running]))
    /\ fst (stop_server w3
              [(m, mk_info (AsyncioProcess child) (PortInt p) running)]
              (Some m))
       = Dict.empty
    /\ get_status w4 Dict.empty = (Dict.empty, Return (mk_report false [])).
Proof.
  intros w1 w2 w3 w4 m p child Hm Hport Hspawn Hlive Hup.
  split; [|split; [|split]].
  - change (start_server w1 Dict.empty m) with (launch w1 Dict.empty m).
    rewrite (launch_succeeds w1 Dict.empty m p child);
      [reflexivity|reflexivity|assumption|assumption].
  - unfold get_status. cbn [status_loop is_dead process].
    rewrite Hlive. cbn [andb]. unfold refresh. cbn [status port].
    rewrite Hup. reflexivity.
  - rewrite (stop_ordinary_removes w3 _ m
               (mk_info (AsyncioProcess child) (PortInt p) running) Hm).
    + unfold Dict.del. cbn [filter fst]. now rewrite String.eqb_refl.
    + cbn [Dict.get]. now rewrite String.eqb_refl.
    + apply andb_false_r.
  - reflexivity.
Qed.

Lemma start_status_stop_cycle_witness :
  start_server quiet_world Dict.empty "facebook/opt-125m"
  = ([("facebook/opt-125m",
       mk_info (AsyncioProcess 1017) (PortInt 8001) starting)],
     Return (started_response "facebook/opt-125m" 8001))
  /\ get_status busy_world
       [("facebook/opt-125m",
         mk_info (AsyncioProcess 1017) (PortInt 8001) starting)]
     = ([("facebook/opt-125m",
          mk_info (AsyncioProcess 1017) (PortInt 8001) running)],
        Return (mk_report true
                  [mk_row "facebook/opt-125m" (PortInt 8001) running]))
  /\ fst (stop_server hostile_world
            [("facebook/opt-125m",
              mk_info (AsyncioProcess 1017) (PortInt 8001) running)]
            (Some "facebook/opt-125m"))
     = Dict.empty.
Proof.
  destruct (start_status_stop_cycle quiet_world busy_world hostile_world
              quiet_world "facebook/opt-125m" 8001 1017
              ltac:(discriminate) eq_refl eq_refl eq_refl eq_refl)
    as (Hstart & Hstatus & Hstop & _).
  split; [exact Hstart|split; [exact Hstatus|exact Hstop]].
Defined.
